(** * Cloud Custodian: account filters and RDS cluster actions

    A shallow embedding of [c7n/resources/account.py] and
    [c7n/resources/rdscluster.py].  Python objects are JSON-like values,
    the provider API is an oracle that answers a request in view of the
    requests made so far, and every function that talks to the provider,
    writes to a logger or annotates a resource record is a computation in
    a state-and-exception monad over an explicit [world]. *)

From stdpp Require Import gmap strings list fin_maps.
From Stdlib Require Import ZArith.

Local Open Scope string_scope.
Local Open Scope Z_scope.
Local Set Warnings "-register-all".

(** ** Python values and the primitive operations the two modules use *)

Module Py.

(** Resource records, API responses and their members.  Mappings have
    string field names; non-integral numbers are outside the model. *)
Inductive value : Type :=
| VNone
| VBool (b : bool)
| VInt (z : Z)
| VStr (s : string)
| VList (l : list value)
| VDict (d : gmap string value).

(** The exceptions that the modelled code can raise or receive.
    [ClientError] carries the [response] attribute of the provider's
    error object. *)
Inductive exn : Type :=
| KeyError (key : value)
| IndexError
| TypeError
| ValueError
| AttributeError (attr : string)
| NameError (name : string)
| ZeroDivisionError
| ClientError (response : value).

Inductive result (A : Type) : Type :=
| Ok (a : A)
| Raise (e : exn).
Arguments Ok {A} a.
Arguments Raise {A} e.

Definition rbind {A B} (r : result A) (k : A → result B) : result B :=
  match r with
  | Ok a => k a
  | Raise e => Raise e
  end.

(** The name of the class of an exception object. *)
Definition class_name (e : exn) : string :=
  match e with
  | KeyError _ => "KeyError"
  | IndexError => "IndexError"
  | TypeError => "TypeError"
  | ValueError => "ValueError"
  | AttributeError _ => "AttributeError"
  | NameError _ => "NameError"
  | ZeroDivisionError => "ZeroDivisionError"
  | ClientError _ => "ClientError"
  end.

(** Names that every module sees without importing them. *)
Definition builtins : list string :=
  [ "Exception"; "KeyError"; "IndexError"; "TypeError"; "ValueError";
    "AttributeError"; "NameError"; "ZeroDivisionError";
    "int"; "len"; "list"; "max"; "reversed"; "object"; "True"; "False";
    "None" ].

(** [isinstance(e, cls)] for an exception class named [cls]. *)
Definition isinstance (e : exn) (cls : string) : bool :=
  String.eqb cls "Exception" || String.eqb cls (class_name e).

(** Truth value of an object, as [if v:] and [not v] test it. *)
Definition truthy (v : value) : bool :=
  match v with
  | VNone => false
  | VBool b => b
  | VInt z => negb (z =? 0)
  | VStr s => negb (String.eqb s "")
  | VList l => match l with [] => false | _ :: _ => true end
  | VDict d => negb (bool_decide (dom d = ∅))
  end.

(** [v[k]] for a string key [k]. *)
Definition getitem (v : value) (k : string) : result value :=
  match v with
  | VDict d =>
      match d !! k with
      | Some x => Ok x
      | None => Raise (KeyError (VStr k))
      end
  | _ => Raise TypeError
  end.

(** [v[i]] for a non-negative integer index [i]. *)
Definition getitem_int (v : value) (i : nat) : result value :=
  match v with
  | VList l =>
      match l !! i with
      | Some x => Ok x
      | None => Raise IndexError
      end
  | VStr s =>
      match String.get i s with
      | Some c => Ok (VStr (String c EmptyString))
      | None => Raise IndexError
      end
  | VDict _ => Raise (KeyError (VInt (Z.of_nat i)))
  | _ => Raise TypeError
  end.

(** [v.get(k, dflt)]; [v.get(k)] is [get v k VNone]. *)
Definition get (v : value) (k : string) (dflt : value) : result value :=
  match v with
  | VDict d => Ok (default dflt (d !! k))
  | _ => Raise (AttributeError "get")
  end.

(** [v[k] = x]: the object after the store. *)
Definition setitem (v : value) (k : string) (x : value) : result value :=
  match v with
  | VDict d => Ok (VDict (<[k := x]> d))
  | _ => Raise TypeError
  end.

(** The elements that [for x in v] visits. *)
Definition iter (v : value) : result (list value) :=
  match v with
  | VList l => Ok l
  | VDict d => Ok ((λ kv, VStr kv.1) <$> map_to_list d)
  | VStr s => Ok ((λ c, VStr (String c EmptyString)) <$> String.list_ascii_of_string s)
  | _ => Raise TypeError
  end.

(** [len(v)]. *)
Definition len (v : value) : result Z :=
  match v with
  | VList l => Ok (Z.of_nat (length l))
  | VDict d => Ok (Z.of_nat (size d))
  | VStr s => Ok (Z.of_nat (String.length s))
  | _ => Raise TypeError
  end.

(** [int(v)].  How the interpreter reads an integer literal out of a
    string is the parameter [int_of_str]; [None] stands for the
    [ValueError] of a string that is not a literal. *)
Definition int (int_of_str : string → option Z) (v : value) : result Z :=
  match v with
  | VInt z => Ok z
  | VBool b => Ok (if b then 1 else 0)
  | VStr s =>
      match int_of_str s with
      | Some z => Ok z
      | None => Raise ValueError
      end
  | _ => Raise TypeError
  end.

Definition lower_ascii (c : Ascii.ascii) : Ascii.ascii :=
  let n := Ascii.nat_of_ascii c in
  if (Nat.leb 65 n && Nat.leb n 90)%bool then Ascii.ascii_of_nat (n + 32) else c.

Fixpoint lower_string (s : string) : string :=
  match s with
  | EmptyString => EmptyString
  | String c s' => String (lower_ascii c) (lower_string s')
  end.

(** [v.lower()]. *)
Definition lower (v : value) : result string :=
  match v with
  | VStr s => Ok (lower_string s)
  | _ => Raise (AttributeError "lower")
  end.

(** [v == 'literal']. *)
Definition eq_str (v : value) (s : string) : bool :=
  match v with
  | VStr s' => String.eqb s' s
  | _ => false
  end.

(** [a / b] on integers: the quotient rounded down. *)
Definition floordiv (a b : Z) : result Z :=
  if b =? 0 then Raise ZeroDivisionError else Ok (a / b).

(** [max(a, b)]: the first argument unless the second is greater. *)
Definition max (a b : Z) : Z := if a <? b then b else a.

(** A value used as the key of a mapping under construction. *)
Definition as_key (v : value) : result string :=
  match v with
  | VStr s => Ok s
  | _ => Raise TypeError
  end.

(** [[x for x in l if p(x)]] where the test may raise. *)
Fixpoint filter_r {A} (p : A → result bool) (l : list A) : result (list A) :=
  match l with
  | [] => Ok []
  | x :: l' =>
      rbind (p x) (λ b,
      rbind (filter_r p l') (λ r,
      Ok (if b then x :: r else r)))
  end.

(** [{x[field]: x for x in l}]: later entries replace earlier ones. *)
Fixpoint dict_by (field : string) (l : list value) (acc : gmap string value)
  : result (gmap string value) :=
  match l with
  | [] => Ok acc
  | x :: l' =>
      rbind (getitem x field) (λ k,
      rbind (as_key k) (λ s,
      dict_by field l' (<[s := x]> acc)))
  end.

End Py.

Export Py.

(** ** The provider boundary, the logger and the monad *)

Module Engine.

(** One request to the provider: [client(service).operation] applied
    to the keyword arguments [params]. *)
Record api_call : Type := Call {
  call_service : string;
  call_operation : string;
  call_params : gmap string value
}.

(** The provider answers with a structure or with a client error that
    carries a machine-readable response. *)
Inductive api_result : Type :=
| ApiOk (resp : value)
| ApiError (response : value).

(** A provider is an oracle: its answer may depend on the requests it
    has already received. *)
Definition provider : Type := list api_call → api_call → api_result.

Inductive log_entry : Type :=
| LogInfo (fmt : string) (arg : value)
| LogError (fmt : string) (e : exn).

(** What a run can observe and change: the requests sent so far, the
    log, and the resource list handed to a filter, whose first record
    the account filters annotate in place. *)
Record world : Type := World {
  w_calls : list api_call;
  w_logs : list log_entry;
  w_resources : list value
}.

Definition M (A : Type) : Type := world → result A * world.

Definition ret {A} (a : A) : M A := λ w, (Ok a, w).

Definition raise {A} (e : exn) : M A := λ w, (Raise e, w).

Definition bind {A B} (m : M A) (k : A → M B) : M B :=
  λ w, match m w with
       | (Ok a, w') => k a w'
       | (Raise e, w') => (Raise e, w')
       end.

Definition lift {A} (r : result A) : M A := λ w, (r, w).

(** Sends [c] to the provider and records it. *)
Definition api (P : provider) (c : api_call) : M value :=
  λ w,
    let w' := World (w_calls w ++ [c])%list (w_logs w) (w_resources w) in
    match P (w_calls w) c with
    | ApiOk v => (Ok v, w')
    | ApiError r => (Raise (ClientError r), w')
    end.

Definition log (e : log_entry) : M unit :=
  λ w, (Ok tt, World (w_calls w) (w_logs w ++ [e])%list (w_resources w)).

(** [resources], the list object itself. *)
Definition resources : M (list value) := λ w, (Ok (w_resources w), w).

(** [resources[0]]. *)
Definition resource0 : M value :=
  λ w, match w_resources w with
       | r :: _ => (Ok r, w)
       | [] => (Raise IndexError, w)
       end.

(** [resources[0][k] = x]. *)
Definition resource0_setitem (k : string) (x : value) : M unit :=
  λ w, match w_resources w with
       | r :: rest =>
           match setitem r k x with
           | Ok r' => (Ok tt, World (w_calls w) (w_logs w) (r' :: rest))
           | Raise e => (Raise e, w)
           end
       | [] => (Raise IndexError, w)
       end.

(** [for x in l: body(x)]. *)
Fixpoint for_each {A} (l : list A) (body : A → M unit) : M unit :=
  match l with
  | [] => ret tt
  | x :: l' => bind (body x) (λ _, for_each l' body)
  end.

(** [try: body / except cls as e: handler(e)] in a module whose
    namespace binds the names [globals].  The class expression of the
    clause is evaluated when an exception reaches it, so a name bound
    neither in the module nor among the builtins raises [NameError]
    there. *)
Definition try_except {A} (globals : list string) (body : M A)
    (cls : string) (handler : exn → M A) : M A :=
  λ w, match body w with
       | (Ok a, w') => (Ok a, w')
       | (Raise e, w') =>
           if bool_decide (cls ∈ (globals ++ builtins)%list) then
             if isinstance e cls then handler e w' else (Raise e, w')
           else (Raise (NameError cls), w')
       end.

End Engine.

Export Engine.

Declare Scope py_scope.
Delimit Scope py_scope with py.
Notation "'let!' x ':=' c 'in' k" := (bind c (λ x, k))
  (at level 10, x name, c at level 100, k at level 200) : py_scope.
Notation "'do!' c 'in' k" := (bind c (λ _, k))
  (at level 10, c at level 100, k at level 200) : py_scope.
Local Open Scope py_scope.

(** ** [c7n/resources/account.py] *)

Module Account.

(** *** Configuration blocks, typed by the schemas the filters declare *)

(** [self.data] of [check-cloudtrail]: every key is optional. *)
Record CloudTrailData : Type := {
  multi_region : option bool;
  global_events : option bool;
  running : option bool;
  notifies : option bool;
  file_digest : option bool;
  kms : option bool;
  kms_key : option string
}.

(** [self.data] of [check-config]. *)
Record ConfigData : Type := {
  all_resources : option bool;
  cfg_running : option bool;
  global_resources : option bool
}.

(** [self.data.get(flag)] and [self.data.get(flag, True)] as a test. *)
Definition enabled (o : option bool) : bool := default false o.
Definition enabled_by_default (o : option bool) : bool := default true o.

(** *** The name [trails] and the objects behind it

    [trails] is first bound to the list object received from the
    provider, the very object stored under ['cloudtrails'], and then
    to lists built by comprehensions.  The trail objects in those lists
    are the elements of the first one, so each is carried with its
    position there: a store into a trail shows in the annotation. *)
Inductive binding : Type :=
| Raw (v : value)
| Built (l : list (nat * value)).

Definition binding_truthy (b : binding) : bool :=
  match b with
  | Raw v => truthy v
  | Built l => match l with [] => false | _ :: _ => true end
  end.

Definition binding_iter (b : binding) : result (list (nat * value)) :=
  match b with
  | Raw v => rbind (iter v) (λ l, Ok (imap pair l))
  | Built l => Ok l
  end.

(** [[t for t in trails if p(t)]]. *)
Definition select (p : value → result bool) (b : binding) : result binding :=
  rbind (binding_iter b) (λ l,
  rbind (filter_r (λ it, p it.2) l) (λ l',
  Ok (Built l'))).

(** [t.get(k)] as a test. *)
Definition has (k : string) (t : value) : result bool :=
  rbind (get t k VNone) (λ v, Ok (truthy v)).

(** [t.get('KmsKeyId', '') == key]. *)
Definition kms_key_is (key : string) (t : value) : result bool :=
  rbind (get t "KmsKeyId" (VStr "")) (λ v, Ok (eq_str v key)).

(** The effect on [resources[0][k]] of a store into its [i]-th
    element, which is the object [x] after the store. *)
Definition alias_store (k : string) (i : nat) (x : value) : M unit :=
  λ w, match w_resources w with
       | VDict d :: rest =>
           match d !! k with
           | Some (VList l) =>
               (Ok tt,
                World (w_calls w) (w_logs w)
                      (VDict (<[k := VList (<[i := x]> l)]> d) :: rest))
           | _ => (Ok tt, w)
           end
       | _ => (Ok tt, w)
       end.

Definition describe_trails : api_call :=
  Call "cloudtrail" "describe_trails" ∅.

Definition get_trail_status (name : value) : api_call :=
  Call "cloudtrail" "get_trail_status" {[ "Name" := name ]}.

Section CloudTrailEnabled.
Variable P : provider.
Variable data : CloudTrailData.

(** The loop of lines 78 to 83; [running] is the list it appends to. *)
Fixpoint running_loop (l running : list (nat * value))
  : M (list (nat * value)) :=
  match l with
  | [] => ret running
  | (i, t) :: l' =>
      let! arn := lift (getitem t "TrailARN") in
      let! status := api P (get_trail_status arn) in
      let! t' := lift (setitem t "Status" status) in
      do! alias_store "cloudtrails" i t' in
      let! logging := lift (getitem status "IsLogging") in
      let! keep :=
        (if truthy logging then
           let! err := lift (get status "LatestDeliveryError" VNone) in
           ret (negb (truthy err))
         else ret false) in
      running_loop l' (if keep then running ++ [(i, t')] else running)%list
  end.

(** Lines 58 to 84: the value of [trails] when the decision is taken. *)
Definition CloudTrailEnabled_trails : M binding :=
  let! resp := api P describe_trails in
  let! raw := lift (getitem resp "trailList") in
  do! resource0_setitem "cloudtrails" raw in
  let trails := Raw raw in
  let! trails :=
    (if enabled (global_events data)
     then lift (select (has "IncludeGlobalServiceEvents") trails)
     else ret trails) in
  let! trails :=
    (if enabled (kms data)
     then lift (select (has "KmsKeyId") trails)
     else ret trails) in
  let! trails :=
    (match kms_key data with
     | Some key =>
         if negb (String.eqb key "")
         then lift (select (kms_key_is key) trails)
         else ret trails
     | None => ret trails
     end) in
  let! trails :=
    (if enabled (file_digest data)
     then lift (select (has "LogFileValidationEnabled") trails)
     else ret trails) in
  let! trails :=
    (if enabled (multi_region data)
     then lift (select (has "IsMultiRegionTrail") trails)
     else ret trails) in
  let! trails :=
    (if enabled (notifies data)
     then lift (select (has "SNSTopicArn") trails)
     else ret trails) in
  if enabled_by_default (running data) then
    let! l := lift (binding_iter trails) in
    let! running := running_loop l [] in
    ret (Built running)
  else ret trails.

(** [CloudTrailEnabled.process]. *)
Definition CloudTrailEnabled_process : M (list value) :=
  let! trails := CloudTrailEnabled_trails in
  if binding_truthy trails then ret [] else resources.

End CloudTrailEnabled.

Definition describe_delivery_channels : api_call :=
  Call "config" "describe_delivery_channels" ∅.

Definition describe_configuration_recorders : api_call :=
  Call "config" "describe_configuration_recorders" ∅.

Definition describe_configuration_recorder_status : api_call :=
  Call "config" "describe_configuration_recorder_status" ∅.

(** [[r for r in recorders if p(r)]]. *)
Definition comprehend (p : value → result bool) (v : value) : result value :=
  rbind (iter v) (λ l, rbind (filter_r p l) (λ l', Ok (VList l'))).

(** [r['recordingGroup'].get(k)] as a test. *)
Definition recording_group_has (k : string) (r : value) : result bool :=
  rbind (getitem r "recordingGroup") (λ g, has k g).

(** [status[k]] for a key that is itself a value. *)
Definition lookup_key (status : gmap string value) (k : value) : result value :=
  match k with
  | VStr s => getitem (VDict status) s
  | VList _ | VDict _ => Raise TypeError
  | _ => Raise (KeyError k)
  end.

(** The test of lines 122 to 124. *)
Definition recorder_running (status : gmap string value) (r : value)
  : result bool :=
  rbind (getitem r "name") (λ n,
  rbind (lookup_key status n) (λ s,
  rbind (getitem s "recording") (λ rec,
  if truthy rec then
    rbind (getitem r "name") (λ n',
    rbind (lookup_key status n') (λ s',
    rbind (getitem s' "lastStatus") (λ ls,
    rbind (lower ls) (λ low,
    Ok (String.eqb low "pending" || String.eqb low "success")))))
  else Ok false))).

Section ConfigEnabled.
Variable P : provider.
Variable data : ConfigData.

(** Lines 102 to 124: [channels] and [recorders] when the decision is
    taken. *)
Definition ConfigEnabled_recorders : M (value * value) :=
  let! resp := api P describe_delivery_channels in
  let! channels := lift (getitem resp "DeliveryChannels") in
  let! resp := api P describe_configuration_recorders in
  let! recorders := lift (getitem resp "ConfigurationRecorders") in
  do! resource0_setitem "config_recorders" recorders in
  do! resource0_setitem "config_channels" channels in
  let! recorders :=
    (if enabled (global_resources data)
     then lift (comprehend (recording_group_has "includeGlobalResources")
                           recorders)
     else ret recorders) in
  let! recorders :=
    (if enabled (all_resources data)
     then lift (comprehend (recording_group_has "allSupported") recorders)
     else ret recorders) in
  let! recorders :=
    (if enabled_by_default (cfg_running data) && truthy recorders then
       let! resp := api P describe_configuration_recorder_status in
       let! l := lift (getitem resp "ConfigurationRecordersStatus") in
       let! items := lift (iter l) in
       let! status := lift (dict_by "name" items ∅) in
       do! resource0_setitem "config_status" (VDict status) in
       lift (comprehend (recorder_running status) recorders)
     else ret recorders) in
  ret (channels, recorders).

(** [ConfigEnabled.process]. *)
Definition ConfigEnabled_process : M (list value) :=
  let! cr := ConfigEnabled_recorders in
  if truthy cr.1 && truthy cr.2 then ret [] else resources.

End ConfigEnabled.

Definition get_account_summary : api_call :=
  Call "iam" "get_account_summary" ∅.

Definition get_account_password_policy : api_call :=
  Call "iam" "get_account_password_policy" ∅.

Section ValueFilters.
Variable P : provider.

(** [self.match], inherited from [ValueFilter] (module [c7n.filters],
    absent from the sources) and taken as a parameter: a function of
    the structure it is given, which answers with a boolean or raises. *)
Variable vf_match : value → result bool.

(** [IAMSummary.process]. *)
Definition IAMSummary_process : M (list value) :=
  let! r0 := resource0 in
  let! cached := lift (get r0 "iam_summary" VNone) in
  do! (if negb (truthy cached) then
         let! resp := api P get_account_summary in
         let! summary := lift (getitem resp "SummaryMap") in
         resource0_setitem "iam_summary" summary
       else ret tt) in
  let! r0 := resource0 in
  let! summary := lift (getitem r0 "iam_summary") in
  let! m := lift (vf_match summary) in
  if m then resources else ret [].

(** [AccountPasswordPolicy.process]. *)
Definition AccountPasswordPolicy_process : M (list value) :=
  let! r0 := resource0 in
  let! cached := lift (get r0 "password_policy" VNone) in
  do! (if negb (truthy cached) then
         let! resp := api P get_account_password_policy in
         let! policy := lift (get resp "PasswordPolicy" (VDict ∅)) in
         resource0_setitem "password_policy" policy
       else ret tt) in
  let! r0 := resource0 in
  let! policy := lift (getitem r0 "password_policy") in
  let! m := lift (vf_match policy) in
  if m then resources else ret [].

End ValueFilters.

Definition describe_account_attributes : api_call :=
  Call "ec2" "describe_account_attributes" ∅.

Definition describe_addresses : api_call :=
  Call "ec2" "describe_addresses" ∅.

(** [EC2(self.manager.ctx, {}).resources()]: the instances that the EC2
    resource manager lists, asked of the provider as one request. *)
Definition ec2_resources : api_call :=
  Call "ec2" "resources" ∅.

(** Lines 225, 239 and 254: [if not quota or count*100/quota < 80:
    return False], else [return True].  The division is evaluated only
    when the first operand of [or] is false. *)
Definition eighty_percent (quota : option Z) (count : Z) : result bool :=
  let unset := match quota with None => true | Some q => q =? 0 end in
  if unset then Ok false
  else match quota with
       | Some q =>
           rbind (floordiv (count * 100) q) (λ pct,
           Ok (negb (pct <? 80)))
       | None => Raise TypeError
       end.

Section AccountAttributesFilter.
Variable P : provider.
Variable int_of_str : string → option Z.

(** [AccountAttributesFilter.get_attribute_count]. *)
Definition get_attribute_count (attr : string) : M (option Z) :=
  let! resp := api P describe_account_attributes in
  let! l := lift (getitem resp "AccountAttributes") in
  let! items := lift (iter l) in
  let! account_attrs := lift (dict_by "AttributeName" items ∅) in
  if negb (truthy (default VNone (account_attrs !! attr))) then ret None
  else
    let! a := lift (getitem (VDict account_attrs) attr) in
    let! vs := lift (getitem a "AttributeValues") in
    let! v0 := lift (getitem_int vs 0) in
    let! av := lift (getitem v0 "AttributeValue") in
    let! n := lift (int int_of_str av) in
    ret (Some n).

(** [len([i for i in client.describe_addresses()['Addresses']
    if i['Domain'] == domain])]. *)
Definition address_count (domain : string) : M Z :=
  let! resp := api P describe_addresses in
  let! addrs := lift (getitem resp "Addresses") in
  let! items := lift (iter addrs) in
  let! mine :=
    lift (filter_r (λ i, rbind (getitem i "Domain")
                               (λ d, Ok (eq_str d domain))) items) in
  ret (Z.of_nat (length mine)).

(** [AccountMaxInstances.__call__]. *)
Definition AccountMaxInstances_call (account : value) : M bool :=
  let! max_instances := get_attribute_count "max-instances" in
  let! rs := api P ec2_resources in
  let! instance_count := lift (len rs) in
  lift (eighty_percent max_instances instance_count).

(** [AccountMaxElasticIPs.__call__]. *)
Definition AccountMaxElasticIPs_call (account : value) : M bool :=
  let! max_elastic_ips := get_attribute_count "max-elastic-ips" in
  let! elastic_ip_count := address_count "standard" in
  lift (eighty_percent max_elastic_ips elastic_ip_count).

(** [AccountMaxVpcElasticIPs.__call__]. *)
Definition AccountMaxVpcElasticIPs_call (account : value) : M bool :=
  let! max_vpc_elastic_ips := get_attribute_count "vpc-max-elastic-ips" in
  let! vpc_elastic_ip_count := address_count "vpc" in
  lift (eighty_percent max_vpc_elastic_ips vpc_elastic_ip_count).

End AccountAttributesFilter.

End Account.

(** ** [c7n/resources/rdscluster.py] *)

Module RDSCluster.

(** The names bound in the module's namespace: what lines 14 to 23
    import, and what the module defines. *)
Definition module_globals : list string :=
  [ "logging"; "as_completed";
    "ActionRegistry"; "BaseAction";
    "FilterRegistry"; "AgeFilter"; "OPERATORS";
    "resources"; "QueryResourceManager";
    "type_schema"; "local_session"; "snapshot_identifier"; "chunks";
    "log"; "filters"; "actions";
    "RDSCluster"; "Delete"; "RetentionWindow"; "Snapshot";
    "RDSClusterSnapshot"; "RDSSnapshotAge"; "RDSClusterSnapshotDelete" ].

(** [self.data] of the [delete] and [retention] actions. *)
Record DeleteData : Type := { skip_snapshot : option bool }.
Record RetentionData : Type := { days : option Z }.

Definition delete_db_cluster (params : gmap string value) : api_call :=
  Call "rds" "delete_db_cluster" params.

Definition modify_db_cluster (id : value) (retention : Z) (backup maintenance : value)
  : api_call :=
  Call "rds" "modify_db_cluster"
       (<["DBClusterIdentifier" := id]>
        (<["BackupRetentionPeriod" := VInt retention]>
         (<["PreferredBackupWindow" := backup]>
          {[ "PreferredMaintenanceWindow" := maintenance ]}))).

Definition create_db_cluster_snapshot (snapshot_id id : value) : api_call :=
  Call "rds" "create_db_cluster_snapshot"
       (<["DBClusterSnapshotIdentifier" := snapshot_id]>
        {[ "DBClusterIdentifier" := id ]}).

Definition delete_db_cluster_snapshot (snapshot_id : value) : api_call :=
  Call "rds" "delete_db_cluster_snapshot"
       {[ "DBClusterSnapshotIdentifier" := snapshot_id ]}.

(** *** The executor *)

(** Modelled from the spec: a future of the worker pool that
    [self.executor_factory] (class [BaseAction], absent from the
    sources) gives.  It holds what its unit of work returned or raised,
    and is kept here together with the argument the unit was submitted
    with. *)
Record future (A : Type) : Type := Future {
  fut_arg : A;
  fut_outcome : result value
}.
Arguments Future {A} fut_arg fut_outcome.
Arguments fut_arg {A} f.
Arguments fut_outcome {A} f.

(** Modelled from the spec: [w.submit(fn, arg)] runs a unit of work and
    captures its outcome in a future; the failure of a unit neither
    reaches the caller nor touches the other units.  The callers below
    wait for every future submitted so far right after each [submit],
    so a unit has finished before the next one is submitted, and
    [submit] runs the unit to its end. *)
Definition submit {A} (fn : A → M value) (arg : A) : M (future A) :=
  λ w, let '(r, w') := fn arg w in (Ok (Future arg r), w').

(** [f.exception()]. *)
Definition exception {A} (f : future A) : option exn :=
  match fut_outcome f with
  | Raise e => Some e
  | Ok _ => None
  end.

(** Modelled from the spec: [chunks] (module [c7n.utils], absent from
    the sources) breaks a sequence into consecutive batches of [size]
    elements, the last one holding the remainder.  [batch] is the batch
    being filled. *)
Fixpoint chunks_from {A} (size : nat) (batch l : list A) : list (list A) :=
  match l with
  | [] => match batch with [] => [] | _ :: _ => [batch] end
  | n :: l' =>
      let batch' := (batch ++ [n])%list in
      if Nat.eqb (length batch' mod size) 0
      then batch' :: chunks_from size [] l'
      else chunks_from size batch' l'
  end.

Definition chunks {A} (l : list A) (size : nat) : list (list A) :=
  chunks_from size [] l.

Section Actions.
Variable P : provider.

(** The module's namespace, [module_globals] for the file as it is. *)
Variable globals : list string.

(** [int] on a string, see [Py.int]. *)
Variable int_of_str : string → option Z.

(** [snapshot_identifier(prefix, db_identifier)] (module [c7n.utils],
    absent from the sources): an identifier made of the prefix, the
    resource identifier and the date. *)
Variable snapshot_identifier : string → value → value.

(** [as_completed(futures)] (module [concurrent.futures]): the
    futures, each once, in the order in which they complete. *)
Variable as_completed : ∀ A, list (future A) → list (future A).

(** The handler of lines 71 to 74; [false] stands for [continue]. *)
Definition Delete_handler (e : exn) : M bool :=
  match e with
  | ClientError response =>
      let! err := lift (getitem response "Error") in
      let! code := lift (getitem err "Code") in
      if eq_str code "InvalidDBClusterStateFault" then ret false
      else raise e
  | _ => raise (AttributeError "response")
  end.

(** [Delete.process]. *)
Definition Delete_process (data : DeleteData) (resources : list value)
  : M unit :=
  let skip := default false (skip_snapshot data) in
  for_each resources (λ cluster,
    let! id := lift (getitem cluster "DBClusterIdentifier") in
    let params : gmap string value := {[ "DBClusterIdentifier" := id ]} in
    let! params :=
      (if skip then ret (<["SkipFinalSnapshot" := VBool true]> params)
       else
         let! id' := lift (getitem cluster "DBClusterIdentifier") in
         ret (<["FinalDBSnapshotIdentifier" :=
                 snapshot_identifier "Final" id']> params)) in
    let! deleted :=
      try_except globals
        (do! api P (delete_db_cluster params) in ret true)
        "ClientError" Delete_handler in
    if deleted then
      let! id'' := lift (getitem cluster "DBClusterIdentifier") in
      log (LogInfo "Deleted RDS cluster: %s" id'')
    else ret tt).

(** The loop shared by the three concurrent actions (lines 91 to 100,
    128 to 137 and 187 to 195): submit a unit, then go through the
    futures submitted so far as they complete and log the exception
    of each one that has one. *)
Fixpoint fan_out {A} (unit : A → M value) (msg : string)
    (items : list A) (futures : list (future A)) : M (list (future A)) :=
  match items with
  | [] => ret futures
  | x :: items' =>
      let! f := submit unit x in
      let futures' := (futures ++ [f])%list in
      do! for_each (as_completed A futures') (λ f',
            match exception f' with
            | Some e => log (LogError msg e)
            | None => ret tt
            end) in
      fan_out unit msg items' futures'
  end.

(** [RetentionWindow.set_retention_window]. *)
Definition set_retention_window (resource : value) (retention : Z) : M unit :=
  let! id := lift (getitem resource "DBClusterIdentifier") in
  let! backup := lift (getitem resource "PreferredBackupWindow") in
  let! maintenance := lift (getitem resource "PreferredMaintenanceWindow") in
  do! api P (modify_db_cluster id retention backup maintenance) in
  ret tt.

(** [RetentionWindow.process_snapshot_retention]. *)
Definition process_snapshot_retention (data : RetentionData)
    (resource : value) : M value :=
  let! v := lift (get resource "BackupRetentionPeriod" (VInt 0)) in
  let! current_retention := lift (int int_of_str v) in
  let! new_retention :=
    lift (match days data with
          | Some d => Ok d
          | None => Raise (KeyError (VStr "days"))
          end) in
  if current_retention <? new_retention then
    do! set_retention_window resource
          (Py.max current_retention new_retention) in
    ret resource
  else ret VNone.

(** The futures of [RetentionWindow.process]. *)
Definition RetentionWindow_futures (data : RetentionData)
    (resources : list value) : M (list (future value)) :=
  fan_out (process_snapshot_retention data)
          "Exception setting RDS cluster retention  \n %s" resources [].

(** [RetentionWindow.process]. *)
Definition RetentionWindow_process (data : RetentionData)
    (resources : list value) : M unit :=
  do! RetentionWindow_futures data resources in
  ret tt.

(** [Snapshot.process_cluster_snapshot]. *)
Definition process_cluster_snapshot (resource : value) : M value :=
  let! id := lift (getitem resource "DBClusterIdentifier") in
  let! id' := lift (getitem resource "DBClusterIdentifier") in
  do! api P (create_db_cluster_snapshot
               (snapshot_identifier "Backup" id) id') in
  ret VNone.

(** The futures of [Snapshot.process]. *)
Definition Snapshot_futures (resources : list value)
  : M (list (future value)) :=
  fan_out process_cluster_snapshot
          "Exception creating RDS cluster snapshot  \n %s" resources [].

(** [Snapshot.process]. *)
Definition Snapshot_process (resources : list value) : M (list value) :=
  do! Snapshot_futures resources in
  ret resources.

(** [RDSClusterSnapshotDelete.process_snapshot_set]. *)
Definition process_snapshot_set (snapshots_set : list value) : M value :=
  do! for_each snapshots_set (λ s,
        try_except globals
          (let! id := lift (getitem s "DBClusterSnapshotIdentifier") in
           do! api P (delete_db_cluster_snapshot id) in
           ret tt)
          "ClientError" (λ e, raise e)) in
  ret VNone.

(** The futures of [RDSClusterSnapshotDelete.process]. *)
Definition RDSClusterSnapshotDelete_futures (snapshots : list value)
  : M (list (future (list value))) :=
  do! log (LogInfo "Deleting %d RDS cluster snapshots"
                   (VInt (Z.of_nat (length snapshots)))) in
  fan_out process_snapshot_set
          "Exception deleting snapshot set \n %s"
          (chunks (rev snapshots) 50) [].


End Actions.

End RDSCluster.

(** * Specifications *)

(** ** The vocabulary of the statements about [account.py] *)

Module AccountProps.
Import Account.

(** A result that is not a division error, and a computation that
    never ends in one. *)
Definition pure_safe {A} (r : result A) : Prop := r ≠ Raise ZeroDivisionError.
Definition never_divides_by_zero {A} (m : M A) : Prop :=
  ∀ w, pure_safe (m w).1.

(** The instance count of line 223. *)
Definition instance_count (P : provider) : M Z :=
  let! rs := api P ec2_resources in lift (len rs).

(** What is asked of a filter that compares [usage] with [quota]: it
    never ends in a division error; once the quota and the usage have
    been read, it answers [False] for a quota that is missing or zero,
    and for a positive quota it answers whether the usage, in hundredths
    of the quota, is at least 80. *)
Definition guarded (quota : M (option Z)) (usage : M Z) (filter : M bool)
  : Prop :=
  ∀ w,
    (filter w).1 ≠ Raise ZeroDivisionError
    ∧ ∀ q w1 n w2,
        quota w = (Ok q, w1) → usage w1 = (Ok n, w2) →
        ((q = None ∨ q = Some 0) → filter w = (Ok false, w2))
        ∧ (∀ z, q = Some z → 0 < z →
             filter w = (Ok (80 <=? n * 100 / z), w2)).

Definition is_dict (v : value) : Prop := ∃ d, v = VDict d.

(** [t.get(k)] is true, for a trail that is a mapping. *)
Definition field_truthy (k : string) (t : value) : bool :=
  match t with
  | VDict d => truthy (default VNone (d !! k))
  | _ => false
  end.

Definition kms_key_matches (key : string) (t : value) : bool :=
  match t with
  | VDict d => eq_str (default (VStr "") (d !! "KmsKeyId")) key
  | _ => false
  end.

(** The sub-predicates of [check-cloudtrail] that read the trail alone,
    each passed by every trail when its flag is off, in the order in
    which the filter applies them. *)
Definition static_tests (data : CloudTrailData) : list (value → bool) :=
  [ λ t, implb (enabled (global_events data))
               (field_truthy "IncludeGlobalServiceEvents" t);
    λ t, implb (enabled (kms data)) (field_truthy "KmsKeyId" t);
    λ t, match kms_key data with
         | Some key => implb (negb (String.eqb key "")) (kms_key_matches key t)
         | None => true
         end;
    λ t, implb (enabled (file_digest data))
               (field_truthy "LogFileValidationEnabled" t);
    λ t, implb (enabled (multi_region data))
               (field_truthy "IsMultiRegionTrail" t);
    λ t, implb (enabled (notifies data)) (field_truthy "SNSTopicArn" t) ].

Definition static_ok (data : CloudTrailData) (t : value) : bool :=
  forallb (λ q : value → bool, q t) (static_tests data).

Definition sift (tests : list (value → bool)) (l : list (nat * value))
  : list (nat * value) :=
  fold_left (λ l q, List.filter (λ it : nat * value, q it.2) l) tests l.

(** A trail status that says the trail is logging and has no delivery
    error. *)
Definition status_ok (st : value) : bool :=
  match st with
  | VDict d =>
      match d !! "IsLogging" with
      | Some l => truthy l && negb (truthy (default VNone (d !! "LatestDeliveryError")))
      | None => false
      end
  | _ => false
  end.

(** The provider, whenever asked, has a status for the trail [t]. *)
Definition answers (P : provider) (t : value) : Prop :=
  ∃ arn, getitem t "TrailARN" = Ok arn
    ∧ ∀ h, ∃ st, P h (get_trail_status arn) = ApiOk (VDict st)
                 ∧ is_Some (st !! "IsLogging").

(** The provider, whenever asked, reports the trail [t] as logging
    without error. *)
Definition logging (P : provider) (t : value) : Prop :=
  ∃ arn, getitem t "TrailARN" = Ok arn
    ∧ ∀ h, ∃ st, P h (get_trail_status arn) = ApiOk st ∧ status_ok st = true.

(** The request for the status of the trail [t], as line 79 sends it. *)
Definition status_check (t : value) : api_call :=
  get_trail_status (match getitem t "TrailARN" with
                    | Ok arn => arn
                    | Raise _ => VNone
                    end).

(** The trail list as the annotation shows it once the loop of lines 78
    to 83 has gone through the trails that are [checked]: each of them,
    in the order of the list, holds under ['Status'] what the provider
    answered when asked after the requests [h] and the checks before
    its own; the other trails are as they came. *)
Fixpoint with_status (P : provider) (checked : value → bool)
    (h : list api_call) (ts : list value) : list value :=
  match ts with
  | [] => []
  | t :: ts' =>
      if checked t then
        let c := status_check t in
        let t' := match P h c with
                  | ApiOk status =>
                      match setitem t "Status" status with
                      | Ok t' => t'
                      | Raise _ => t
                      end
                  | ApiError _ => t
                  end in
        t' :: with_status P checked (h ++ [c]) ts'
      else t :: with_status P checked h ts'
  end.

(** The first resource is a mapping that has the key [k], and the
    others are [rest]. *)
Definition annotated (k : string) (rest : list value) (w : world) : Prop :=
  ∃ a, w_resources w = VDict a :: rest ∧ is_Some (a !! k).

Definition nonempty {A} (l : list A) : bool :=
  match l with [] => false | _ :: _ => true end.

(** What a step of the filter keeps of a binding of [trails]: the
    elements it iterates over, and its truth value. *)
Definition holds (b : binding) (l : list (nat * value)) : Prop :=
  binding_iter b = Ok l ∧ binding_truthy b = nonempty l.

(** The boolean flags of the two composite filters. *)
Inductive cloudtrail_flag : Type :=
| MultiRegion | GlobalEvents | Running | Notifies | FileDigest | Kms.


(** The configuration [data] with the flag absent ([None]) or present
    with a value. *)
Definition set_flag (f : cloudtrail_flag) (v : option bool)
    (data : CloudTrailData) : CloudTrailData :=
  match f with
  | MultiRegion =>
      Build_CloudTrailData v (global_events data) (running data) (notifies data)
        (file_digest data) (kms data) (kms_key data)
  | GlobalEvents =>
      Build_CloudTrailData (multi_region data) v (running data) (notifies data)
        (file_digest data) (kms data) (kms_key data)
  | Running =>
      Build_CloudTrailData (multi_region data) (global_events data) v
        (notifies data) (file_digest data) (kms data) (kms_key data)
  | Notifies =>
      Build_CloudTrailData (multi_region data) (global_events data)
        (running data) v (file_digest data) (kms data) (kms_key data)
  | FileDigest =>
      Build_CloudTrailData (multi_region data) (global_events data)
        (running data) (notifies data) v (kms data) (kms_key data)
  | Kms =>
      Build_CloudTrailData (multi_region data) (global_events data)
        (running data) (notifies data) (file_digest data) v (kms_key data)
  end.




(** What [process] returns when the cached annotation is [s]. *)
Definition decision (vf_match : value → result bool) (s : value) (w : world)
  : result (list value) :=
  match vf_match s with
  | Ok true => Ok (w_resources w)
  | Ok false => Ok []
  | Raise e => Raise e
  end.

End AccountProps.

(** ** The vocabulary of the statements about [rdscluster.py] *)

Module RDSClusterProps.
Import RDSCluster.

(** [only_logs w1 w2]: from [w1] to [w2] nothing happened but writes
    to the log. *)
Definition only_logs (w1 w2 : world) : Prop :=
  w_calls w2 = w_calls w1
  ∧ w_resources w2 = w_resources w1
  ∧ ∃ extra, w_logs w2 = (w_logs w1 ++ extra)%list.

(** [ran unit items w futures w']: starting in [w], the unit was run
    once on each item, in order, each run starting where the previous
    one ended up to log writes; [futures] holds the outcome of each
    run, whether it returned or raised, and [w'] is the final world. *)
Inductive ran {A} (unit : A → M value)
  : list A → world → list (future A) → world → Prop :=
| ran_nil w w' :
    only_logs w w' → ran unit [] w [] w'
| ran_cons x items w r w1 w2 futures w' :
    unit x w = (r, w1) →
    only_logs w1 w2 →
    ran unit items w2 futures w' →
    ran unit (x :: items) w (Future x r :: futures) w'.

(** The log entries of one pass over [futures]. *)
Definition wave_log {A} (msg : string) (futures : list (future A))
  : list log_entry :=
  omap (λ f, LogError msg <$> exception f) futures.


(** The request that the snapshot unit sends for a record: one if the
    record has an identifier, none otherwise. *)
Definition snapshot_requests (snapshot_identifier : string → value → value)
    (r : value) : list api_call :=
  match getitem r "DBClusterIdentifier" with
  | Ok id => [create_db_cluster_snapshot (snapshot_identifier "Backup" id) id]
  | Raise _ => []
  end.

(** The keyword arguments of the request that [Delete.process] sends
    for the cluster named [id]. *)
Definition delete_params (snapshot_identifier : string → value → value)
    (data : DeleteData) (id : value) : gmap string value :=
  if default false (skip_snapshot data)
  then <["SkipFinalSnapshot" := VBool true]> {[ "DBClusterIdentifier" := id ]}
  else <["FinalDBSnapshotIdentifier" := snapshot_identifier "Final" id]>
         {[ "DBClusterIdentifier" := id ]}.

(** The world once the request [c] has been sent. *)
Definition sent (w : world) (c : api_call) : world :=
  World (w_calls w ++ [c]) (w_logs w) (w_resources w).

(** A computation that leaves the log as it found it. *)
Definition keeps_logs {A} (m : M A) : Prop := ∀ w, w_logs (m w).2 = w_logs w.

End RDSClusterProps.

(** ** Sample resources and providers *)

Module Samples.
Import RDSCluster.

Definition start : world := World [] [] [].

(** A cluster record as [describe_db_clusters] lists it. *)
Definition cluster_fields (id : string) (retention : Z) : gmap string value :=
  <["DBClusterIdentifier" := VStr id]>
    (<["BackupRetentionPeriod" := VInt retention]>
     (<["PreferredBackupWindow" := VStr "03:00-04:00"]>
      {[ "PreferredMaintenanceWindow" := VStr "sun:05:00-sun:06:00" ]})).

Definition cluster (id : string) (retention : Z) : value :=
  VDict (cluster_fields id retention).

Definition snapshot (id : string) : value :=
  VDict {[ "DBClusterSnapshotIdentifier" := VStr id ]}.

(** The [response] of a client error with the given code. *)
Definition error_response (code : string) : value :=
  VDict {[ "Error" := VDict {[ "Code" := VStr code ]} ]}.

(** A provider that answers every request with an empty structure,
    except that it refuses with [code] a request whose parameter [key]
    is [bad]. *)
Definition refuses (key bad code : string) : provider :=
  λ _ c,
    match call_params c !! key with
    | Some (VStr s) =>
        if String.eqb s bad then ApiError (error_response code)
        else ApiOk (VDict ∅)
    | _ => ApiOk (VDict ∅)
    end.

(** A provider that accepts everything. *)
Definition accepts : provider := λ _ _, ApiOk (VDict ∅).

Definition snapshot_name (prefix : string) (id : value) : value :=
  match id with
  | VStr s => VStr (prefix +:+ "-" +:+ s)
  | _ => VStr prefix
  end.

Fixpoint decimal (s : string) (acc : Z) : option Z :=
  match s with
  | EmptyString => Some acc
  | String c s' =>
      let n := Ascii.nat_of_ascii c in
      if (Nat.leb 48 n && Nat.leb n 57)%bool
      then decimal s' (10 * acc + Z.of_nat (n - 48))
      else None
  end.

(** Reads an unsigned decimal literal. *)
Definition read_int (s : string) : option Z :=
  match s with
  | EmptyString => None
  | _ => decimal s 0
  end.

(** Completion in the order of submission. *)
Definition in_order : ∀ A, list (future A) → list (future A) := λ _ l, l.

Definition ten_clusters : list value :=
  (λ id, cluster id 5) <$>
    ["db-1"; "db-2"; "db-3"; "db-4"; "db-5";
     "db-6"; "db-7"; "db-8"; "db-9"; "db-10"].


(** A provider that answers an operation with the response listed for
    it, whatever the parameters, and refuses the operations not listed. *)
Definition scripted (answers : list (string * value)) : provider :=
  λ _ c,
    match List.find (λ a : string * value, String.eqb a.1 (call_operation c))
                    answers with
    | Some a => ApiOk a.2
    | None => ApiError (error_response "UnknownOperation")
    end.

Definition trail_fields : gmap string value :=
  <["TrailARN" := VStr "arn:aws:cloudtrail:trail/main"]>
    (<["IsMultiRegionTrail" := VBool true]>
     {[ "IncludeGlobalServiceEvents" := VBool true ]}).

Definition trail : value := VDict trail_fields.

(** An account with no trail. *)
Definition no_trails : provider :=
  scripted [ ("describe_trails", VDict {[ "trailList" := VList [] ]}) ].

(** An account with one trail whose status is [status]. *)
Definition one_trail (status : value) : provider :=
  scripted [ ("describe_trails", VDict {[ "trailList" := VList [trail] ]});
             ("get_trail_status", status) ].

Definition stopped : value := VDict {[ "IsLogging" := VBool false ]}.
Definition delivering : value := VDict {[ "IsLogging" := VBool true ]}.

Definition no_flags : Account.CloudTrailData :=
  Account.Build_CloudTrailData None None None None None None None.

Definition account : gmap string value :=
  <["account_id" := VStr "123456789012"]> {[ "account_name" := VStr "dev" ]}.

(** The world of a filter run: the account as the only resource. *)
Definition account_world : world := World [] [] [VDict account].

(** The same account once [iam-summary] has annotated it. *)
Definition summary : value :=
  VDict (<["AccountAccessKeysPresent" := VInt 1]> {[ "Users" := VInt 5 ]}).

Definition summarised_world : world :=
  World [] [] [VDict (<["iam_summary" := summary]> account)].

(** A value filter: root access keys are present. *)
Definition access_keys_present (s : value) : result bool :=
  rbind (getitem s "AccountAccessKeysPresent") (λ v, Ok (truthy v)).

Definition attribute (name count : string) : value :=
  VDict (<["AttributeName" := VStr name]>
         {[ "AttributeValues" :=
              VList [VDict {[ "AttributeValue" := VStr count ]}] ]}).

Definition address (domain : string) : value :=
  VDict {[ "Domain" := VStr domain ]}.

(** An account with a quota of 20 instances and 16 of them running, a
    quota of zero classic addresses, and no quota listed for VPC
    addresses. *)
Definition quotas : provider :=
  scripted
    [ ("describe_account_attributes",
       VDict {[ "AccountAttributes" :=
                  VList [attribute "max-instances" "20";
                         attribute "max-elastic-ips" "0"] ]});
      ("resources", VList (replicate 16 (VDict ∅)));
      ("describe_addresses",
       VDict {[ "Addresses" := VList [address "standard"; address "vpc"] ]}) ].

End Samples.

(** * Further models and predicates *)

(** ** Records and requests *)

Module Records.

(** [r[k]], or [None] for a record that has no such field. *)
Definition field (k : string) (r : value) : value :=
  match getitem r k with
  | Ok v => v
  | Raise _ => VNone
  end.

Definition has_field (k : string) (r : value) : Prop :=
  ∃ v, getitem r k = Ok v.

(** The world once the request [c] has been sent. *)
Definition after (w : world) (c : api_call) : world :=
  World (w_calls w ++ [c]) (w_logs w) (w_resources w).

End Records.

(** ** Predicates on the actions of [rdscluster.py] *)

Module RDSClusterMoreProps.
Import RDSCluster RDSClusterProps Records.

(** The request [c] raises the retention of the cluster [r] to the
    configured days: the record has its identifier and its two windows,
    its current period is below the days of the configuration, and [c]
    asks for those days with the record's own windows. *)
Definition raises_retention (int_of_str : string → option Z)
    (data : RetentionData) (r : value) (c : api_call) : Prop :=
  ∃ id d cur backup maintenance,
    days data = Some d
    ∧ rbind (get r "BackupRetentionPeriod" (VInt 0)) (Py.int int_of_str) = Ok cur
    ∧ cur < d
    ∧ getitem r "DBClusterIdentifier" = Ok id
    ∧ getitem r "PreferredBackupWindow" = Ok backup
    ∧ getitem r "PreferredMaintenanceWindow" = Ok maintenance
    ∧ c = modify_db_cluster id d backup maintenance.

(** The requests sent for one resource: none, or one that raises its
    retention. *)
Definition at_most_a_raise (int_of_str : string → option Z)
    (data : RetentionData) (r : value) (s : list api_call) : Prop :=
  s = [] ∨ ∃ c, s = [c] ∧ raises_retention int_of_str data r c.

(** The cluster [r] is at the configured retention or above. *)
Definition at_target (int_of_str : string → option Z)
    (data : RetentionData) (r : value) : Prop :=
  ∃ d cur,
    days data = Some d
    ∧ rbind (get r "BackupRetentionPeriod" (VInt 0)) (Py.int int_of_str) = Ok cur
    ∧ d ≤ cur.

(** The provider accepts every request for the operation [op]. *)
Definition accepts_operation (P : provider) (op : string) : Prop :=
  ∀ h c, call_operation c = op → ∃ v, P h c = ApiOk v.

(** The request and the log line of [Delete.process] for a cluster. *)
Definition delete_request (snapshot_identifier : string → value → value)
    (data : DeleteData) (r : value) : api_call :=
  delete_db_cluster
    (delete_params snapshot_identifier data (field "DBClusterIdentifier" r)).

Definition delete_log (r : value) : log_entry :=
  LogInfo "Deleted RDS cluster: %s" (field "DBClusterIdentifier" r).

Definition snapshot_delete_request (s : value) : api_call :=
  delete_db_cluster_snapshot (field "DBClusterSnapshotIdentifier" s).

(** The snapshots of a batch up to the first that has no identifier. *)
Fixpoint with_identifier (batch : list value) : list value :=
  match batch with
  | [] => []
  | s :: batch' =>
      match getitem s "DBClusterSnapshotIdentifier" with
      | Ok _ => s :: with_identifier batch'
      | Raise _ => []
      end
  end.

(** Every snapshot of the batch has an identifier. *)
Definition complete (batch : list value) : bool :=
  forallb (λ s, match getitem s "DBClusterSnapshotIdentifier" with
                | Ok _ => true
                | Raise _ => false
                end) batch.

(** The lists of futures that the loop goes through, one after each
    submission: the futures [seen] so far and those to come, [new]. *)
Fixpoint waves {A} (seen new : list (future A)) : list (list (future A)) :=
  match new with
  | [] => []
  | f :: new' => (seen ++ [f])%list :: waves (seen ++ [f])%list new'
  end.

End RDSClusterMoreProps.

(** ** [Account.resources], and predicates on the filters of [account.py] *)

Module AccountManager.

Definition list_account_aliases : api_call :=
  Call "iam" "list_account_aliases" ∅.

(** The record that [Account.resources] builds. *)
Definition account_record (account_id account_name : value) : value :=
  VDict (<["account_id" := account_id]> {[ "account_name" := account_name ]}).

Section Account.
Variable P : provider.

(** [get_account_id(session)] (module [c7n.utils], absent from the
    sources), taken as a parameter: a computation that yields the
    account id. *)
Variable get_account_id : M value.

(** [self.filter_resources] (class [ResourceManager], absent from the
    sources), taken as a parameter: the filter chain of the policy. *)
Variable filter_resources : list value → M (list value).

(** [Account.resources].  The default [('',)] of [get] is a tuple, which
    is subscripted like a list. *)
Definition Account_resources : M (list value) :=
  let! account_id := get_account_id in
  let! resp := api P list_account_aliases in
  let! aliases := lift (get resp "AccountAliases" (VList [VStr ""])) in
  let! account_name := lift (getitem_int aliases 0) in
  filter_resources [account_record account_id account_name].

End Account.

End AccountManager.

Module AccountMoreProps.
Import Account AccountProps Records.

(** The request for the status of the trail [t]. *)
Definition status_request (t : value) : api_call :=
  get_trail_status (field "TrailARN" t).

(** The entries of a list of attributes that are mappings named by a
    string. *)
Definition named (a : value) : Prop :=
  ∃ d n, a = VDict d ∧ d !! "AttributeName" = Some (VStr n).

Definition is_named (attr : string) (a : value) : bool :=
  eq_str (field "AttributeName" a) attr.

(** The last entry named [attr], if any. *)
Definition last_named (attr : string) (items : list value) : option value :=
  last (List.filter (is_named attr) items).

(** [int(a['AttributeValues'][0]['AttributeValue'])]. *)
Definition read_count (int_of_str : string → option Z) (a : value) : result Z :=
  rbind (getitem a "AttributeValues") (λ vs,
  rbind (getitem_int vs 0) (λ v0,
  rbind (getitem v0 "AttributeValue") (λ av,
  Py.int int_of_str av))).

Definition in_domain (domain : string) (address : value) : bool :=
  eq_str (field "Domain" address) domain.

(** The test of [check-config] on the status of a recorder: it is
    recording, and its last status is pending or success in any case of
    letters. *)
Definition recorder_ok (recording : value) (last_status : string) : bool :=
  truthy recording
  && (String.eqb (lower_string last_status) "pending"
      || String.eqb (lower_string last_status) "success").

(** The recorder [r] passes the sub-predicates of [check-config] that
    read the recorder alone, as far as they are enabled. *)
Definition recorder_selected (data : ConfigData) (r : value) : Prop :=
  (enabled (global_resources data) = true →
     recording_group_has "includeGlobalResources" r = Ok true)
  ∧ (enabled (all_resources data) = true →
     recording_group_has "allSupported" r = Ok true).

End AccountMoreProps.

(** ** Further sample inputs *)

Module Fixtures.
Import RDSCluster Samples.

Definition two_clusters : list value := [cluster "db-1" 5; cluster "db-2" 5].

Definition three_snapshots : list value :=
  [snapshot "s-1"; snapshot "s-2"; snapshot "s-3"].

(** Three snapshot records, the second without its identifier. *)
Definition broken_snapshots : list value :=
  [snapshot "s-1"; VDict ∅; snapshot "s-3"].

(** An account with the one alias [dev]. *)
Definition aliases : gmap string value :=
  {[ "AccountAliases" := VList [VStr "dev"] ]}.

Definition one_alias : provider :=
  scripted [ ("list_account_aliases", VDict aliases) ].

(** A provider that refuses every request. *)
Definition refuses_all : provider := scripted [].

(** A trail record without its ARN. *)
Definition nameless_trail : gmap string value :=
  {[ "IsMultiRegionTrail" := VBool true ]}.

Definition one_nameless_trail : provider :=
  scripted [ ("describe_trails",
              VDict {[ "trailList" := VList [VDict nameless_trail] ]}) ].

(** An account with a trail that has no field at all, and so is not
    multi-region, beside the trail of [one_trail], which is logging. *)
Definition mixed_trail_list : list value := [VDict ∅; trail].

Definition mixed_trails : provider :=
  scripted [ ("describe_trails", VDict {[ "trailList" := VList mixed_trail_list ]});
             ("get_trail_status", delivering) ].

Definition channel : value := VDict {[ "name" := VStr "default" ]}.

Definition recorder : gmap string value :=
  <["name" := VStr "default"]>
    {[ "recordingGroup" := VDict {[ "allSupported" := VBool true ]} ]}.

Definition recorder_status : gmap string value :=
  <["name" := VStr "default"]>
    (<["recording" := VBool true]> {[ "lastStatus" := VStr "SUCCESS" ]}).

(** An account whose configuration service has the given recorders and
    statuses, and one delivery channel. *)
Definition config_service (recorders statuses : list value) : provider :=
  scripted
    [ ("describe_delivery_channels",
       VDict {[ "DeliveryChannels" := VList [channel] ]});
      ("describe_configuration_recorders",
       VDict {[ "ConfigurationRecorders" := VList recorders ]});
      ("describe_configuration_recorder_status",
       VDict {[ "ConfigurationRecordersStatus" := VList statuses ]}) ].

Definition config_defaults : Account.ConfigData :=
  Account.Build_ConfigData None None None.

(** The quota of classic addresses listed twice, 10 and then 5; four
    classic addresses and one VPC address in use. *)
Definition listed_attributes : list value :=
  [attribute "max-elastic-ips" "10"; attribute "max-instances" "20";
   attribute "max-elastic-ips" "5"].

Definition addresses_in_use : list value :=
  [address "standard"; address "vpc"; address "standard";
   address "standard"; address "standard"].

Definition elastic_quotas : provider :=
  scripted
    [ ("describe_account_attributes",
       VDict {[ "AccountAttributes" := VList listed_attributes ]});
      ("describe_addresses",
       VDict {[ "Addresses" := VList addresses_in_use ]}) ].

End Fixtures.

(** * Proofs *)

(** ** Running computations *)

Lemma bind_ok {A B} (m : M A) (k : A → M B) w a w' :
  m w = (Ok a, w') → bind m k w = k a w'.
Proof. unfold bind. intros ->. reflexivity. Qed.

Lemma bind_raise {A B} (m : M A) (k : A → M B) w e w' :
  m w = (Raise e, w') → bind m k w = (Raise e, w').
Proof. unfold bind. intros ->. reflexivity. Qed.


Module AccountSpec.
Import Account AccountProps.

(** ** Comprehensions over mappings *)

Lemma filter_r_pure {A} (p : A → result bool) (q : A → bool) l :
  Forall (λ x, p x = Ok (q x)) l → filter_r p l = Ok (List.filter q l).
Proof.
  induction 1 as [|x l Hx _ IH]; [reflexivity|].
  simpl. rewrite Hx, IH. simpl. destruct (q x); reflexivity.
Qed.

Lemma has_dict k d : has k (VDict d) = Ok (field_truthy k (VDict d)).
Proof. reflexivity. Qed.

Lemma kms_key_is_dict key d :
  kms_key_is key (VDict d) = Ok (kms_key_matches key (VDict d)).
Proof. reflexivity. Qed.

Lemma filter_all {A} (l : list A) : List.filter (λ _, true) l = l.
Proof. induction l as [|x l IH]; simpl; congruence. Qed.

Lemma Forall_dict_filter q (l : list (nat * value)) :
  Forall (λ it, is_dict it.2) l →
  Forall (λ it, is_dict it.2) (List.filter q l).
Proof.
  rewrite !Forall_forall. intros H it Hit.
  apply list_elem_of_In, filter_In in Hit as [Hit _].
  apply H, list_elem_of_In, Hit.
Qed.

Lemma select_step (flag : bool) p q b l (w : world) :
  holds b l →
  Forall (λ it, is_dict it.2) l →
  (∀ d, p (VDict d) = Ok (q (VDict d))) →
  ∃ b', (if flag then lift (select p b) else ret b) w = (Ok b', w)
        ∧ holds b' (List.filter (λ it, implb flag (q it.2)) l).
Proof.
  intros [Hiter Htruthy] Hdict Hp. destruct flag; simpl.
  - exists (Built (List.filter (λ it, q it.2) l)).
    unfold lift, select. rewrite Hiter. simpl.
    rewrite (filter_r_pure _ (λ it, q it.2)).
    + split; [reflexivity|]. split; [reflexivity|].
      simpl. destruct (List.filter _ l); reflexivity.
    + eapply Forall_impl; [exact Hdict|].
      intros [i t] [d ->]. apply Hp.
  - exists b. rewrite filter_all. repeat split; assumption.
Qed.

Lemma elem_of_sift tests l it :
  it ∈ sift tests l ↔ it ∈ l ∧ forallb (λ q : value → bool, q it.2) tests = true.
Proof.
  unfold sift. revert l. induction tests as [|q tests IH]; intros l; simpl.
  - tauto.
  - rewrite IH, !list_elem_of_In, filter_In, andb_true_iff. tauto.
Qed.

Lemma Forall_dict_sift tests (l : list (nat * value)) :
  Forall (λ it, is_dict it.2) l → Forall (λ it, is_dict it.2) (sift tests l).
Proof.
  unfold sift. revert l. induction tests as [|q tests IH]; intros l H; simpl.
  - exact H.
  - apply IH, Forall_dict_filter, H.
Qed.


(** ** The status loop of [check-cloudtrail] *)

Lemma alias_store_annotated k i x rest w :
  annotated k rest w →
  ∃ w', alias_store k i x w = (Ok tt, w')
        ∧ annotated k rest w'
        ∧ w_calls w' = w_calls w ∧ w_logs w' = w_logs w.
Proof.
  intros (a & Hres & Hkey). unfold alias_store. rewrite Hres.
  assert (Hsame : ∃ w', (Ok tt, w) = (Ok tt, w')
            ∧ annotated k rest w'
            ∧ w_calls w' = w_calls w ∧ w_logs w' = w_logs w).
  { exists w. split; [reflexivity|]. split; [|split; reflexivity].
    exists a. split; assumption. }
  destruct (a !! k) as [[| | | |l|]|] eqn:Ha; try exact Hsame.
  eexists. split; [reflexivity|]. split; [|split; reflexivity].
  eexists. split; [reflexivity|]. rewrite lookup_insert_eq. eauto.
Qed.

Lemma running_loop_cons P i t l running :
  running_loop P ((i, t) :: l) running =
    (let! arn := lift (getitem t "TrailARN") in
     let! status := api P (get_trail_status arn) in
     let! t' := lift (setitem t "Status" status) in
     do! alias_store "cloudtrails" i t' in
     let! logging := lift (getitem status "IsLogging") in
     let! keep :=
       (if truthy logging then
          let! err := lift (get status "LatestDeliveryError" VNone) in
          ret (negb (truthy err))
        else ret false) in
     running_loop P l (if keep then running ++ [(i, t')] else running)%list).
Proof. reflexivity. Qed.

Lemma filter_twice {A} (p q : A → bool) l :
  List.filter q (List.filter p l) = List.filter (λ x, p x && q x) l.
Proof.
  induction l as [|x l IH]; [reflexivity|].
  simpl. destruct (p x); simpl; [destruct (q x)|]; rewrite IH; reflexivity.
Qed.

Lemma sift_filter tests l :
  sift tests l = List.filter (λ it, forallb (λ q : value → bool, q it.2) tests) l.
Proof.
  unfold sift. revert l. induction tests as [|q tests IH]; intros l; simpl.
  - symmetry. apply filter_all.
  - rewrite IH, filter_twice. reflexivity.
Qed.

Lemma with_status_unchecked P h ts : with_status P (λ _, false) h ts = ts.
Proof. induction ts as [|t ts IH]; [reflexivity|]. simpl. rewrite IH. reflexivity. Qed.

(** The loop over the trails of [suf] that pass [q], each carried with
    its position in the list stored under ['cloudtrails']: it asks for
    the status of each in turn and stores it into the trail at that
    position, and it keeps at least every trail that is logging. *)
Lemma running_loop_stores P (q : value → bool) acct rest suf :
  ∀ (f : nat → nat) pre acc h logs,
    (∀ i, f i = (length pre + i)%nat) →
    Forall is_dict suf →
    Forall (answers P) (List.filter q suf) →
    ∃ out,
      running_loop P
        (List.filter (λ it : nat * value, q it.2) (imap (λ i x, (f i, x)) suf))
        acc
        (World h logs
               (VDict (<["cloudtrails" := VList (pre ++ suf)]> acct) :: rest))
      = (Ok (acc ++ out)%list,
         World (h ++ (status_check <$> List.filter q suf)) logs
               (VDict (<["cloudtrails" :=
                           VList (pre ++ with_status P q h suf)]> acct) :: rest))
      ∧ ((∃ t, t ∈ suf ∧ q t = true ∧ logging P t) → out ≠ []).
Proof.
  induction suf as [|t suf IH]; intros f pre acc h logs Hf Hdict Hanswers.
  - exists []. split.
    + simpl. rewrite !app_nil_r. reflexivity.
    + intros (t & Ht & _). inversion Ht.
  - apply Forall_cons in Hdict as [[d ->] Hdict].
    rewrite imap_cons. cbn [List.filter snd with_status] in *.
    assert (Hf' : ∀ i, (f ∘ S) i = (length (pre ++ [VDict d]) + i)%nat).
    { intros i. rewrite length_app. cbn [length compose]. rewrite Hf. lia. }
    destruct (q (VDict d)) eqn:Hq.
    + apply Forall_cons in Hanswers as [(arn & Harn & Hstatus) Hanswers].
      destruct (Hstatus h) as (st & HP & lg & Hlg).
      assert (Hcheck : status_check (VDict d) = get_trail_status arn).
      { unfold status_check. rewrite Harn. reflexivity. }
      rewrite Hcheck, HP. cbn [setitem].
      set (t' := VDict (<["Status" := VDict st]> d)).
      set (keep := status_ok (VDict st)).
      assert (Hf'' : ∀ i, (f ∘ S) i = (length (pre ++ [t']) + i)%nat).
      { intros i. rewrite length_app. cbn [length compose]. rewrite Hf. lia. }
      destruct (IH (f ∘ S) (pre ++ [t'])%list
                  (if keep then acc ++ [(f 0%nat, t')] else acc)%list
                  (h ++ [get_trail_status arn])%list logs Hf'' Hdict Hanswers)
        as (out & Hloop & Hout).
      exists ((if keep then [(f 0%nat, t')] else []) ++ out)%list. split.
      * rewrite running_loop_cons.
        unfold bind at 1, lift at 1. rewrite Harn.
        unfold bind at 1, api. cbn [w_calls w_logs w_resources]. rewrite HP.
        unfold bind at 1, lift at 1. cbn [setitem]. fold t'.
        unfold bind at 1, alias_store. cbn [w_calls w_logs w_resources].
        rewrite lookup_insert_eq, insert_insert_eq, Hf, insert_app_r.
        cbn [list_insert insert].
        unfold bind at 1, lift at 1. cbn [getitem]. rewrite Hlg.
        unfold bind at 1.
        match goal with
        | |- context [(if truthy lg then ?a else ?b) ?w] =>
            replace ((if truthy lg then a else b) w) with (Ok keep, w)
        end.
        -- rewrite Hf in Hloop.
           replace (pre ++ t' :: suf)%list with ((pre ++ [t']) ++ suf)%list
             by (rewrite <- app_assoc; reflexivity).
           change (imap ((λ i x, (f i, x)) ∘ S) suf)
             with (imap (λ i x, ((f ∘ S) i, x)) suf).
           rewrite Hloop, fmap_cons, Hcheck. f_equal.
           ++ f_equal. destruct keep; rewrite <- ?app_assoc; reflexivity.
           ++ rewrite <- !app_assoc. reflexivity.
        -- subst keep. unfold status_ok. rewrite Hlg.
           destruct (truthy lg); reflexivity.
      * intros (t & Ht & Hqt & Hlogging).
        apply elem_of_cons in Ht as [-> | Ht].
        -- destruct Hlogging as (arn' & Harn' & Hgood).
           rewrite Harn in Harn'. injection Harn' as <-.
           destruct (Hgood h) as (st' & HP' & Hok).
           rewrite HP in HP'. injection HP' as <-.
           fold keep in Hok. rewrite Hok. discriminate.
        -- intros Happ. apply app_eq_nil in Happ as [_ ->].
           apply Hout; eauto.
    + destruct (IH (f ∘ S) (pre ++ [VDict d])%list acc h logs Hf' Hdict Hanswers)
        as (out & Hloop & Hout).
      exists out. split.
      * replace (pre ++ VDict d :: suf)%list
          with ((pre ++ [VDict d]) ++ suf)%list
          by (rewrite <- app_assoc; reflexivity).
        change (imap ((λ i x, (f i, x)) ∘ S) suf)
          with (imap (λ i x, ((f ∘ S) i, x)) suf).
        rewrite Hloop. rewrite <- !app_assoc. reflexivity.
      * intros (t & Ht & Hqt & Hlogging).
        apply elem_of_cons in Ht as [-> | Ht]; [congruence|].
        apply Hout; eauto.
Qed.


(** ** [check-cloudtrail] on well-formed trails *)

Lemma holds_raw ts : holds (Raw (VList ts)) (imap pair ts).
Proof. split; [reflexivity|]. destruct ts; reflexivity. Qed.

Lemma Forall_dict_imap ts :
  Forall is_dict ts → Forall (λ it : nat * value, is_dict it.2) (imap pair ts).
Proof.
  rewrite !Forall_forall. intros H it Hit.
  apply elem_of_lookup_imap in Hit as (i & x & -> & Hx).
  apply H. eapply list_elem_of_lookup_2, Hx.
Qed.

Ltac chain_step Hb Hd :=
  match goal with
  | |- context [bind (if ?flag then lift (select ?p ?b) else ret ?b) _ ?w] =>
      let b' := fresh "b" in
      let E := fresh "E" in
      let Hb' := fresh "Hb" in
      let q := lazymatch p with
               | has ?k => constr:(field_truthy k)
               | kms_key_is ?key => constr:(kms_key_matches key)
               end in
      destruct (select_step flag p q b _ w Hb Hd) as (b' & E & Hb');
      [ intros ?; reflexivity |];
      rewrite (bind_ok _ _ _ _ _ E); clear E;
      apply (Forall_dict_filter (λ it, implb flag (q it.2))) in Hd
  end.

(** Up to the status loop, the filter sends one request, stores the
    trail list under ['cloudtrails'] and keeps the trails that pass the
    static sub-predicates. *)
Lemma trails_chain P data w acct rest resp ts :
  w_resources w = VDict acct :: rest →
  P (w_calls w) describe_trails = ApiOk resp →
  getitem resp "trailList" = Ok (VList ts) →
  Forall is_dict ts →
  let w1 := World (w_calls w ++ [describe_trails]) (w_logs w)
                  (VDict (<["cloudtrails" := VList ts]> acct) :: rest) in
  let l := sift (static_tests data) (imap pair ts) in
  ∃ b, holds b l
       ∧ CloudTrailEnabled_trails P data w =
           (if enabled_by_default (running data) then
              let! running := running_loop P l [] in ret (Built running)
            else ret b) w1.
Proof.
  intros Hres HP Hraw Hdict w1 l.
  pose proof (holds_raw ts) as Hb.
  apply Forall_dict_imap in Hdict.
  unfold CloudTrailEnabled_trails.
  unfold bind at 1, api. rewrite HP.
  unfold bind at 1, lift at 1. rewrite Hraw.
  unfold bind at 1, resource0_setitem. cbn [w_resources]. rewrite Hres.
  cbn [setitem w_calls w_logs]. fold w1.
  subst l. destruct data as [mr ge rn nt fd km kk].
  unfold sift, static_tests.
  cbn [fold_left multi_region global_events running notifies file_digest
       kms kms_key].
  chain_step Hb Hdict. chain_step Hb0 Hdict.
  destruct kk as [key|].
  - chain_step Hb1 Hdict. chain_step Hb2 Hdict. chain_step Hb3 Hdict.
    chain_step Hb4 Hdict.
    exists b4. split; [exact Hb5|].
    destruct (enabled_by_default rn); [|reflexivity].
    destruct Hb5 as [Hiter _].
    unfold bind at 1, lift at 1. rewrite Hiter. reflexivity.
  - unfold bind at 1, ret at 1. rewrite filter_all.
    chain_step Hb1 Hdict. chain_step Hb2 Hdict. chain_step Hb3 Hdict.
    exists b3. split; [exact Hb4|].
    destruct (enabled_by_default rn); [|reflexivity].
    destruct Hb4 as [Hiter _].
    unfold bind at 1, lift at 1. rewrite Hiter. reflexivity.
Qed.


Lemma sift_nil tests : sift tests [] = [].
Proof.
  destruct (sift tests []) as [|it l] eqn:E; [reflexivity|].
  assert (Hit : it ∈ sift tests []) by (rewrite E; left).
  apply elem_of_sift in Hit as [Hit _]. inversion Hit.
Qed.

Lemma nonempty_elem_of {A} (l : list A) x : x ∈ l → nonempty l = true.
Proof. destruct l; [inversion 1 | reflexivity]. Qed.

(** C2.  [check-cloudtrail] on the single account record, once the
    provider has listed the trails.  With no trail, the filter returns
    the resource list itself, its record now carrying the empty trail
    list under ['cloudtrails'], after one request and nothing else.
    With trails that are mappings, and a provider that has a status for
    each trail that reaches the running check, the filter leaves the
    record as it was but for the trail list of the provider stored
    under ['cloudtrails'], whose trails that reached the running check
    hold their ['Status']; it has sent the request that lists the
    trails and the status requests, and nothing else.  It returns the
    empty list or that resource list, and the empty list whenever some
    trail passes every enabled sub-predicate. *)
Theorem cloudtrail_annotates_then_decides
    (P : provider) (data : CloudTrailData) (acct : gmap string value)
    (w : world) (resp : value) (ts : list value) :
  w_resources w = [VDict acct] →
  P (w_calls w) describe_trails = ApiOk resp →
  getitem resp "trailList" = Ok (VList ts) →
  let checked t := enabled_by_default (running data) && static_ok data t in
  (ts = [] →
     let annotated_account := VDict (<["cloudtrails" := VList []]> acct) in
     CloudTrailEnabled_process P data w =
       (Ok [annotated_account],
        World (w_calls w ++ [describe_trails]) (w_logs w) [annotated_account]))
  ∧ (Forall is_dict ts →
     Forall (answers P) (List.filter checked ts) →
     let annotated_account :=
       VDict (<["cloudtrails" :=
                  VList (with_status P checked
                           (w_calls w ++ [describe_trails]) ts)]> acct) in
     ∃ decided,
       CloudTrailEnabled_process P data w =
         (Ok decided,
          World (w_calls w
                 ++ describe_trails :: (status_check <$> List.filter checked ts))
                (w_logs w) [annotated_account])
       ∧ (decided = [] ∨ decided = [annotated_account])
       ∧ ((∃ t, t ∈ ts ∧ static_ok data t = true
                ∧ (enabled_by_default (running data) = true → logging P t)) →
          decided = [])).
Proof.
  intros Hres HP Hraw checked. split.
  - intros -> annotated_account.
    destruct (trails_chain P data w acct [] resp [] Hres HP Hraw)
      as (b & [_ Htruthy] & Hrun); [constructor|].
    unfold CloudTrailEnabled_process, bind at 1. rewrite Hrun.
    cbn [imap] in *. rewrite sift_nil in *.
    destruct (enabled_by_default (running data)).
    + reflexivity.
    + unfold ret at 1. rewrite Htruthy. reflexivity.
  - intros Hdict Hanswers annotated_account.
    destruct (trails_chain P data w acct [] resp ts Hres HP Hraw Hdict)
      as (b & [_ Htruthy] & Hrun).
    unfold CloudTrailEnabled_process, bind at 1. rewrite Hrun. clear Hrun.
    subst annotated_account checked.
    destruct (enabled_by_default (running data)); cbn [andb] in *.
    + rewrite sift_filter.
      destruct (running_loop_stores P (static_ok data) acct [] ts id [] []
                  (w_calls w ++ [describe_trails])%list (w_logs w)
                  (λ i, eq_refl) Hdict Hanswers)
        as (out & Hloop & Hout).
      cbn [app] in Hloop.
      unfold bind at 1.
      change (imap pair ts) with (imap (λ i x, (id i, x)) ts).
      change (λ it : nat * value,
                forallb (λ q : value → bool, q it.2) (static_tests data))
        with (λ it : nat * value, static_ok data it.2).
      rewrite Hloop. unfold ret at 1. rewrite <- app_assoc. cbn [app].
      destruct out as [|it out].
      * eexists. split; [reflexivity|]. split; [right; reflexivity|].
        intros (t & Ht & Hstatic & Hlogging). exfalso.
        apply Hout; [|reflexivity]. exists t. auto.
      * exists []. split; [reflexivity|]. split; [left; reflexivity|].
        reflexivity.
    + change (λ t : value, false) with (λ _ : value, false).
      rewrite with_status_unchecked.
      assert (Hnone : List.filter (λ _ : value, false) ts = []).
      { clear. induction ts as [|t ts IH]; [reflexivity | exact IH]. }
      rewrite Hnone. unfold ret at 1. rewrite Htruthy.
      destruct (nonempty (sift (static_tests data) (imap pair ts))) eqn:Hne.
      * exists []. split; [reflexivity|]. split; [left; reflexivity|].
        reflexivity.
      * eexists. split; [reflexivity|]. split; [right; reflexivity|].
        intros (t & Ht & Hstatic & _). exfalso.
        apply list_elem_of_lookup_1 in Ht as [i Hi].
        assert (Hin : (i, t) ∈ sift (static_tests data) (imap pair ts)).
        { apply elem_of_sift. split; [|exact Hstatic].
          apply (elem_of_lookup_imap_2 pair). exact Hi. }
        rewrite (nonempty_elem_of _ _ Hin) in Hne. discriminate.
Qed.


(** ** Flags left out of the configuration *)



(** ** The cached lookups of the value filters *)

Section ValueFilters.
Variable P : provider.
Variable vf_match : value → result bool.

Lemma IAMSummary_cached w r rest s :
  w_resources w = VDict r :: rest →
  r !! "iam_summary" = Some s → truthy s = true →
  IAMSummary_process P vf_match w = (decision vf_match s w, w).
Proof.
  intros Hres Hs Htruthy.
  unfold IAMSummary_process, decision, bind, lift, resource0, resources, ret.
  rewrite Hres. simpl. rewrite Hs. simpl. rewrite Htruthy. simpl.
  rewrite ?Hres. simpl. rewrite ?Hs.
  destruct (vf_match s) as [[|]|e]; simpl; rewrite ?Hres; reflexivity.
Qed.

Lemma AccountPasswordPolicy_cached w r rest s :
  w_resources w = VDict r :: rest →
  r !! "password_policy" = Some s → truthy s = true →
  AccountPasswordPolicy_process P vf_match w = (decision vf_match s w, w).
Proof.
  intros Hres Hs Htruthy.
  unfold AccountPasswordPolicy_process, decision, bind, lift, resource0,
    resources, ret.
  rewrite Hres. simpl. rewrite Hs. simpl. rewrite Htruthy. simpl.
  rewrite ?Hres. simpl. rewrite ?Hs.
  destruct (vf_match s) as [[|]|e]; simpl; rewrite ?Hres; reflexivity.
Qed.

(** A first evaluation that finds no summary on the record fetches it
    with one request and stores it. *)
Lemma IAMSummary_fetched w r rest resp s :
  w_resources w = VDict r :: rest →
  truthy (default VNone (r !! "iam_summary")) = false →
  P (w_calls w) get_account_summary = ApiOk resp →
  getitem resp "SummaryMap" = Ok s →
  let w1 := World (w_calls w ++ [get_account_summary]) (w_logs w)
                  (VDict (<["iam_summary" := s]> r) :: rest) in
  IAMSummary_process P vf_match w = (decision vf_match s w1, w1).
Proof.
  intros Hres Hnone HP Hs w1.
  unfold IAMSummary_process, decision, bind, lift, resource0, resources, ret,
    api, resource0_setitem.
  rewrite Hres. simpl. rewrite Hnone. simpl. rewrite HP, Hs. simpl.
  rewrite Hres. simpl. rewrite lookup_insert_eq.
  destruct (vf_match s) as [[|]|e]; reflexivity.
Qed.

Lemma AccountPasswordPolicy_fetched w r rest resp s :
  w_resources w = VDict r :: rest →
  truthy (default VNone (r !! "password_policy")) = false →
  P (w_calls w) get_account_password_policy = ApiOk resp →
  get resp "PasswordPolicy" (VDict ∅) = Ok s →
  let w1 := World (w_calls w ++ [get_account_password_policy]) (w_logs w)
                  (VDict (<["password_policy" := s]> r) :: rest) in
  AccountPasswordPolicy_process P vf_match w = (decision vf_match s w1, w1).
Proof.
  intros Hres Hnone HP Hs w1.
  unfold AccountPasswordPolicy_process, decision, bind, lift, resource0,
    resources, ret, api, resource0_setitem.
  rewrite Hres. simpl. rewrite Hnone. simpl. rewrite HP, Hs. simpl.
  rewrite Hres. simpl. rewrite lookup_insert_eq.
  destruct (vf_match s) as [[|]|e]; reflexivity.
Qed.

(** C7.  [iam-summary] and [password-policy] keep the structure they
    looked up on the account record.  On a record that carries a
    non-empty annotation, [process] decides with [match] on that
    annotation and leaves the world as it found it: no request is sent,
    so a second evaluation on the same record gives the same result.  On
    a record without one, a first evaluation that receives a non-empty
    structure sends one request and leaves a record on which the next
    evaluation sends nothing and decides the same. *)
Theorem cached_annotation_is_reused
    (w : world) (r : gmap string value) (rest : list value) (s : value) :
  w_resources w = VDict r :: rest →
  truthy s = true →
  (r !! "iam_summary" = Some s →
     IAMSummary_process P vf_match w = (decision vf_match s w, w)
     ∧ ∀ out w', IAMSummary_process P vf_match w = (out, w') →
         w_calls w' = w_calls w ∧ IAMSummary_process P vf_match w' = (out, w'))
  ∧ (r !! "password_policy" = Some s →
     AccountPasswordPolicy_process P vf_match w = (decision vf_match s w, w)
     ∧ ∀ out w', AccountPasswordPolicy_process P vf_match w = (out, w') →
         w_calls w' = w_calls w
         ∧ AccountPasswordPolicy_process P vf_match w' = (out, w'))
  ∧ (truthy (default VNone (r !! "iam_summary")) = false →
     ∀ resp, P (w_calls w) get_account_summary = ApiOk resp →
       getitem resp "SummaryMap" = Ok s →
       ∃ out w', IAMSummary_process P vf_match w = (out, w')
         ∧ w_calls w' = (w_calls w ++ [get_account_summary])%list
         ∧ IAMSummary_process P vf_match w' = (out, w'))
  ∧ (truthy (default VNone (r !! "password_policy")) = false →
     ∀ resp, P (w_calls w) get_account_password_policy = ApiOk resp →
       get resp "PasswordPolicy" (VDict ∅) = Ok s →
       ∃ out w', AccountPasswordPolicy_process P vf_match w = (out, w')
         ∧ w_calls w' = (w_calls w ++ [get_account_password_policy])%list
         ∧ AccountPasswordPolicy_process P vf_match w' = (out, w')).
Proof.
  intros Hres Htruthy. split; [|split; [|split]].
  - intros Hs. pose proof (IAMSummary_cached w r rest s Hres Hs Htruthy) as H.
    split; [exact H|]. intros out w' Hout. rewrite H in Hout.
    injection Hout as <- <-. split; [reflexivity | exact H].
  - intros Hs.
    pose proof (AccountPasswordPolicy_cached w r rest s Hres Hs Htruthy) as H.
    split; [exact H|]. intros out w' Hout. rewrite H in Hout.
    injection Hout as <- <-. split; [reflexivity | exact H].
  - intros Hnone resp HP Hs.
    pose proof (IAMSummary_fetched w r rest resp s Hres Hnone HP Hs) as H.
    cbv zeta in H. eexists _, _. split; [exact H|]. split; [reflexivity|].
    erewrite IAMSummary_cached;
      [reflexivity | reflexivity | apply lookup_insert_eq | exact Htruthy].
  - intros Hnone resp HP Hs.
    pose proof (AccountPasswordPolicy_fetched w r rest resp s Hres Hnone HP Hs)
      as H.
    cbv zeta in H. eexists _, _. split; [exact H|]. split; [reflexivity|].
    erewrite AccountPasswordPolicy_cached;
      [reflexivity | reflexivity | apply lookup_insert_eq | exact Htruthy].
Qed.

(** C9.  The account filters read [resources[0]].  On an empty
    resource list, [iam-summary] and [password-policy] raise
    [IndexError] at once; [check-cloudtrail] and [check-config] never
    return a list, and raise [IndexError] as soon as the provider has
    answered their describe requests. *)
Theorem account_filters_need_a_resource (w : world) :
  w_resources w = [] →
  IAMSummary_process P vf_match w = (Raise IndexError, w)
  ∧ AccountPasswordPolicy_process P vf_match w = (Raise IndexError, w)
  ∧ (∀ data,
       (∀ l, (CloudTrailEnabled_process P data w).1 ≠ Ok l)
       ∧ ∀ resp raw,
           P (w_calls w) describe_trails = ApiOk resp →
           getitem resp "trailList" = Ok raw →
           (CloudTrailEnabled_process P data w).1 = Raise IndexError)
  ∧ (∀ data,
       (∀ l, (ConfigEnabled_process P data w).1 ≠ Ok l)
       ∧ ∀ resp channels resp' recorders,
           P (w_calls w) describe_delivery_channels = ApiOk resp →
           getitem resp "DeliveryChannels" = Ok channels →
           P (w_calls w ++ [describe_delivery_channels])%list
             describe_configuration_recorders = ApiOk resp' →
           getitem resp' "ConfigurationRecorders" = Ok recorders →
           (ConfigEnabled_process P data w).1 = Raise IndexError).
Proof.
  intros Hres. split; [|split; [|split]].
  - unfold IAMSummary_process, bind, resource0. rewrite Hres. reflexivity.
  - unfold AccountPasswordPolicy_process, bind, resource0. rewrite Hres.
    reflexivity.
  - intros data.
    assert (Hshape : ∀ r,
      P (w_calls w) describe_trails = r →
      (CloudTrailEnabled_process P data w).1 =
        match r with
        | ApiOk resp =>
            match getitem resp "trailList" with
            | Ok _ => Raise IndexError
            | Raise e => Raise e
            end
        | ApiError response => Raise (ClientError response)
        end).
    { intros r Hr. unfold CloudTrailEnabled_process, CloudTrailEnabled_trails.
      unfold bind at 1. unfold bind at 1. unfold api. rewrite Hr.
      destruct r as [resp|response]; [|reflexivity].
      unfold bind at 1. unfold lift at 1.
      destruct (getitem resp "trailList") as [raw|e]; [|reflexivity].
      unfold bind at 1. unfold resource0_setitem. cbn [w_resources].
      rewrite Hres. reflexivity. }
    split.
    + intros l. rewrite (Hshape _ eq_refl).
      destruct (P _ _) as [resp|response]; [|discriminate].
      destruct (getitem resp "trailList"); discriminate.
    + intros resp raw HP Hraw. rewrite (Hshape _ HP), Hraw. reflexivity.
  - intros data.
    assert (Hshape : ∀ r r',
      P (w_calls w) describe_delivery_channels = r →
      P (w_calls w ++ [describe_delivery_channels])%list
        describe_configuration_recorders = r' →
      (ConfigEnabled_process P data w).1 =
        match r with
        | ApiOk resp =>
            match getitem resp "DeliveryChannels" with
            | Ok _ =>
                match r' with
                | ApiOk resp' =>
                    match getitem resp' "ConfigurationRecorders" with
                    | Ok _ => Raise IndexError
                    | Raise e => Raise e
                    end
                | ApiError response => Raise (ClientError response)
                end
            | Raise e => Raise e
            end
        | ApiError response => Raise (ClientError response)
        end).
    { intros r r' Hr Hr'.
      unfold ConfigEnabled_process, ConfigEnabled_recorders.
      unfold bind at 1. unfold bind at 1. unfold api at 1. rewrite Hr.
      destruct r as [resp|response]; [|reflexivity].
      unfold bind at 1. unfold lift at 1.
      destruct (getitem resp "DeliveryChannels") as [channels|e]; [|reflexivity].
      unfold bind at 1. unfold api at 1. cbn [w_calls]. rewrite Hr'.
      destruct r' as [resp'|response]; [|reflexivity].
      unfold bind at 1. unfold lift at 1.
      destruct (getitem resp' "ConfigurationRecorders") as [recorders|e];
        [|reflexivity].
      unfold bind at 1. unfold resource0_setitem. cbn [w_resources].
      rewrite Hres. reflexivity. }
    split.
    + intros l. rewrite (Hshape _ _ eq_refl eq_refl).
      destruct (P _ describe_delivery_channels) as [resp|response];
        [|discriminate].
      destruct (getitem resp "DeliveryChannels"); [|discriminate].
      destruct (P _ describe_configuration_recorders) as [resp'|response];
        [|discriminate].
      destruct (getitem resp' "ConfigurationRecorders"); discriminate.
    + intros resp channels resp' recorders HP Hch HP' Hrec.
      rewrite (Hshape _ _ HP HP'), Hch, Hrec. reflexivity.
Qed.

End ValueFilters.

(** ** The eighty-percent filters *)

Lemma safe_ok {A} (a : A) : pure_safe (Ok a).
Proof. discriminate. Qed.

Lemma safe_rbind {A B} (r : result A) (k : A → result B) :
  pure_safe r → (∀ a, pure_safe (k a)) → pure_safe (rbind r k).
Proof.
  intros Hr Hk. destruct r as [a|e]; simpl; [apply Hk|].
  intros [= ->]. apply Hr. reflexivity.
Qed.

Lemma safe_getitem v k : pure_safe (getitem v k).
Proof. destruct v; simpl; try discriminate. destruct (d !! k); discriminate. Qed.

Lemma safe_getitem_int v i : pure_safe (getitem_int v i).
Proof.
  destruct v; simpl; try discriminate.
  - destruct (String.get i s); discriminate.
  - destruct (l !! i); discriminate.
Qed.

Lemma safe_iter v : pure_safe (iter v).
Proof. destruct v; discriminate. Qed.

Lemma safe_len v : pure_safe (len v).
Proof. destruct v; discriminate. Qed.

Lemma safe_int f v : pure_safe (Py.int f v).
Proof. destruct v; simpl; try discriminate. destruct (f s); discriminate. Qed.

Lemma safe_as_key v : pure_safe (as_key v).
Proof. destruct v; discriminate. Qed.

Lemma safe_filter_r {A} (p : A → result bool) l :
  (∀ x, pure_safe (p x)) → pure_safe (filter_r p l).
Proof.
  intros Hp. induction l as [|x l IH]; simpl; [discriminate|].
  apply safe_rbind; [apply Hp|]. intros b.
  apply safe_rbind; [apply IH|]. discriminate.
Qed.

Lemma safe_dict_by field l acc : pure_safe (dict_by field l acc).
Proof.
  revert acc. induction l as [|x l IH]; intros acc; simpl; [discriminate|].
  apply safe_rbind; [apply safe_getitem|]. intros k.
  apply safe_rbind; [apply safe_as_key|]. intros s. apply IH.
Qed.

Lemma eighty_percent_total quota count :
  ∃ b, eighty_percent quota count = Ok b.
Proof.
  unfold eighty_percent, floordiv.
  destruct quota as [q|]; [|eauto].
  destruct (q =? 0) eqn:Hq; simpl; eauto.
Qed.

Lemma safe_eighty_percent quota count : pure_safe (eighty_percent quota count).
Proof. destruct (eighty_percent_total quota count) as [b ->]. discriminate. Qed.

Lemma never_ret {A} (a : A) : never_divides_by_zero (ret a).
Proof. intros w. discriminate. Qed.

Lemma never_lift {A} (r : result A) :
  pure_safe r → never_divides_by_zero (lift r).
Proof. intros H w. exact H. Qed.

Lemma never_api P c : never_divides_by_zero (api P c).
Proof. intros w. unfold api. destruct (P _ _); discriminate. Qed.

Lemma never_bind {A B} (m : M A) (k : A → M B) :
  never_divides_by_zero m → (∀ a, never_divides_by_zero (k a)) →
  never_divides_by_zero (bind m k).
Proof.
  intros Hm Hk w. unfold bind. specialize (Hm w).
  destruct (m w) as [[a|e] w']; [apply Hk|].
  simpl in *. intros [= ->]. apply Hm. reflexivity.
Qed.

Create HintDb zde.
#[local] Hint Resolve safe_ok safe_getitem safe_getitem_int safe_iter
  safe_len safe_int safe_as_key safe_dict_by safe_eighty_percent
  never_ret never_lift never_api : zde.

Ltac never_zde :=
  repeat first
    [ apply never_bind; [| intros ?]
    | match goal with |- never_divides_by_zero (if ?c then _ else _) =>
        destruct c end
    | solve [auto with zde] ].

Section AttributeThresholds.
Variable P : provider.
Variable int_of_str : string → option Z.

Lemma never_get_attribute_count attr :
  never_divides_by_zero (get_attribute_count P int_of_str attr).
Proof. unfold get_attribute_count. never_zde. Qed.

Lemma never_address_count domain :
  never_divides_by_zero (address_count P domain).
Proof.
  unfold address_count. never_zde.
  apply never_lift, safe_filter_r. intros x.
  apply safe_rbind; auto with zde.
Qed.

Lemma guarded_intro quota usage :
  never_divides_by_zero quota → never_divides_by_zero usage →
  guarded quota usage
    (let! q := quota in let! n := usage in lift (eighty_percent q n)).
Proof.
  intros Hq Hu w. split.
  - revert w. change (never_divides_by_zero
      (let! q := quota in let! n := usage in lift (eighty_percent q n))).
    never_zde.
  - intros q w1 n w2 Hqw Hnw. unfold bind, lift. rewrite Hqw, Hnw.
    split.
    + intros [-> | ->]; reflexivity.
    + intros z -> Hz. unfold eighty_percent, floordiv.
      destruct (Z.eqb_spec z 0); [lia|]. simpl.
      f_equal. f_equal. destruct (Z.ltb_spec (n * 100 / z) 80);
        destruct (Z.leb_spec 80 (n * 100 / z)); simpl; try reflexivity; lia.
Qed.

(** C4.  The three eighty-percent filters never end in a division
    error, whatever the provider answers.  Once the quota attribute and
    the usage have been read, a quota that is missing or zero gives
    [False], and a positive quota gives [True] exactly when the usage,
    in hundredths of the quota rounded down, is at least 80. *)
Theorem eighty_percent_filters_guarded (account : value) :
  guarded (get_attribute_count P int_of_str "max-instances")
          (instance_count P)
          (AccountMaxInstances_call P int_of_str account)
  ∧ guarded (get_attribute_count P int_of_str "max-elastic-ips")
            (address_count P "standard")
            (AccountMaxElasticIPs_call P int_of_str account)
  ∧ guarded (get_attribute_count P int_of_str "vpc-max-elastic-ips")
            (address_count P "vpc")
            (AccountMaxVpcElasticIPs_call P int_of_str account).
Proof.
  split; [|split].
  - intros w.
    destruct (guarded_intro (get_attribute_count P int_of_str "max-instances")
                (instance_count P) (never_get_attribute_count _)) with (w := w)
      as [H1 H2].
    { unfold instance_count. never_zde. }
    split.
    + intros Hc. apply H1. rewrite <- Hc.
      unfold AccountMaxInstances_call, instance_count, bind.
      destruct (get_attribute_count _ _ _ w) as [[q|e] w1]; [|reflexivity].
      destruct (api P ec2_resources w1) as [[rs|e] w2]; reflexivity.
    + intros q w1 n w2 Hq Hn.
      replace (AccountMaxInstances_call P int_of_str account w) with
        ((let! q := get_attribute_count P int_of_str "max-instances" in
          let! n := (instance_count P) in lift (eighty_percent q n)) w).
      * exact (H2 q w1 n w2 Hq Hn).
      * unfold AccountMaxInstances_call, instance_count, bind.
        destruct (get_attribute_count _ _ _ w) as [[q'|e] w1']; [|reflexivity].
        destruct (api P ec2_resources w1') as [[rs|e] w2']; reflexivity.
  - apply guarded_intro; [apply never_get_attribute_count | apply never_address_count].
  - apply guarded_intro; [apply never_get_attribute_count | apply never_address_count].
Qed.
End AttributeThresholds.
End AccountSpec.

Module RDSClusterSpec.
Import RDSCluster RDSClusterProps.

(** ** The retention step *)

Section Retention.
Variable P : provider.
Variable int_of_str : string → option Z.

(** C1.  One step of the retention action never lowers the retention
    period.  When the current period, read with [int] and taken as 0
    if the record has none, is at least the configured [days], the
    step returns without sending any request and leaves the world as
    it was.  When it is strictly less and the record has its
    identifier and its two windows, the step sends exactly one
    request, a [modify_db_cluster] whose retention is [days] and whose
    windows are those of the record, and returns the record itself
    unless the provider refuses the request. *)
Theorem retention_step_monotonic
    (data : RetentionData) (r : gmap string value) (d cur : Z) (w : world) :
  days data = Some d →
  Py.int int_of_str (default (VInt 0) (r !! "BackupRetentionPeriod")) = Ok cur →
  (d ≤ cur →
     process_snapshot_retention P int_of_str data (VDict r) w = (Ok VNone, w))
  ∧ (cur < d →
     ∀ id backup maintenance,
       r !! "DBClusterIdentifier" = Some id →
       r !! "PreferredBackupWindow" = Some backup →
       r !! "PreferredMaintenanceWindow" = Some maintenance →
       let c := modify_db_cluster id d backup maintenance in
       process_snapshot_retention P int_of_str data (VDict r) w =
         (match P (w_calls w) c with
          | ApiOk _ => Ok (VDict r)
          | ApiError response => Raise (ClientError response)
          end,
          World (w_calls w ++ [c]) (w_logs w) (w_resources w))).
Proof.
  intros Hd Hcur.
  unfold process_snapshot_retention, bind, lift, ret; simpl.
  rewrite Hcur, Hd.
  split.
  - intros Hle. destruct (Z.ltb_spec cur d); [lia | reflexivity].
  - intros Hlt id backup maintenance Hid Hb Hm.
    destruct (Z.ltb_spec cur d); [| lia].
    unfold set_retention_window, bind, lift, ret, api, Py.max; simpl.
    rewrite Hid, Hb, Hm.
    destruct (Z.ltb_spec cur d); [| lia].
    destruct (P _ _); reflexivity.
Qed.
End Retention.

(** ** Batches *)

Section Chunks.
Context {A : Type}.
Variable size : nat.
Hypothesis size_pos : (0 < size)%nat.

Lemma chunks_from_short (l batch : list A) :
  (length batch + length l < size)%nat →
  chunks_from size batch l =
    match (batch ++ l)%list with [] => [] | _ :: _ => [(batch ++ l)%list] end.
Proof.
  revert batch. induction l as [|n l IH]; intros batch Hlen; simpl.
  - rewrite app_nil_r. reflexivity.
  - simpl in Hlen.
    assert (Hb : length (batch ++ [n]) = S (length batch))
      by (rewrite length_app; simpl; lia).
    rewrite Hb, Nat.mod_small by lia. simpl.
    rewrite IH by (rewrite Hb; lia).
    rewrite <- app_assoc. simpl.
    destruct batch; reflexivity.
Qed.

Lemma chunks_from_fill (a rest batch : list A) :
  a ≠ [] → (length batch + length a = size)%nat →
  chunks_from size batch (a ++ rest) =
    (batch ++ a)%list :: chunks_from size [] rest.
Proof.
  revert batch. induction a as [|n a IH]; intros batch Hne Hlen; [done|].
  simpl in *.
  assert (Hb : length (batch ++ [n]) = S (length batch))
    by (rewrite length_app; simpl; lia).
  rewrite Hb.
  destruct a as [|n' a].
  - simpl in *. replace (S (length batch)) with size by lia.
    rewrite Nat.Div0.mod_same. reflexivity.
  - rewrite Nat.mod_small by (simpl in Hlen; lia). simpl Nat.eqb. cbv iota.
    rewrite IH; [| done | rewrite Hb; simpl in *; lia].
    rewrite <- app_assoc. reflexivity.
Qed.

(** A list that does not fill a batch is one batch, an empty list
    none. *)
Lemma chunks_short (l : list A) :
  (length l ≤ size)%nat →
  chunks l size = match l with [] => [] | _ :: _ => [l] end.
Proof.
  intros Hlen. unfold chunks.
  destruct (decide (length l = size)) as [Heq|Hne].
  - destruct l as [|x l]; [reflexivity|].
    rewrite <- (app_nil_r (x :: l)) at 1.
    rewrite chunks_from_fill by (done || exact Heq). reflexivity.
  - rewrite chunks_from_short by (simpl; lia). reflexivity.
Qed.

(** A full batch comes off the front. *)
Lemma chunks_app (a rest : list A) :
  length a = size → chunks (a ++ rest) size = a :: chunks rest size.
Proof.
  intros Hlen. unfold chunks. apply chunks_from_fill; [|exact Hlen].
  destruct a; [simpl in Hlen; lia | done].
Qed.

Lemma chunks_unfold (l : list A) :
  l ≠ [] → chunks l size = take size l :: chunks (drop size l) size.
Proof.
  intros Hne. destruct (decide (length l ≤ size)%nat) as [Hle|Hgt].
  - rewrite chunks_short by exact Hle.
    rewrite take_ge, drop_ge by exact Hle.
    destruct l; [done | reflexivity].
  - rewrite <- (take_drop size l) at 1.
    apply chunks_app. rewrite length_take. lia.
Qed.


Lemma chunks_concat (l : list A) : concat (chunks l size) = l.
Proof.
  induction l as [l IH] using (induction_ltof1 _ (@length A)).
  unfold ltof in IH.
  destruct l as [|x l]; [reflexivity|].
  rewrite chunks_unfold by done. simpl concat.
  rewrite IH; [apply take_drop|].
  rewrite length_drop. simpl. lia.
Qed.
End Chunks.


(** ** The fan-out loop *)

Lemma only_logs_refl w : only_logs w w.
Proof. repeat split. exists []. rewrite app_nil_r. reflexivity. Qed.

Lemma ran_args {A} (unit : A → M value) items w futures w' :
  ran unit items w futures w' → fut_arg <$> futures = items.
Proof.
  induction 1 as [|x items w r w1 w2 futures w' _ _ _ IH]; [reflexivity|].
  rewrite fmap_cons, IH. reflexivity.
Qed.

Lemma elem_of_wave_log {A} msg (futures : list (future A)) f e :
  f ∈ futures → exception f = Some e → LogError msg e ∈ wave_log msg futures.
Proof.
  intros Hf He. unfold wave_log. apply list_elem_of_omap.
  exists f. split; [exact Hf|]. rewrite He. reflexivity.
Qed.

Section FanOut.
Variable as_completed : ∀ A, list (future A) → list (future A).
Context {A : Type}.
Variable unit : A → M value.
Variable msg : string.

Let report (f : future A) : M () :=
  match exception f with
  | Some e => log (LogError msg e)
  | None => ret tt
  end.

Lemma wave_logs (futures : list (future A)) w :
  for_each futures report w =
    (Ok tt, World (w_calls w) (w_logs w ++ wave_log msg futures)
                  (w_resources w)).
Proof.
  revert w. induction futures as [|f futures IH]; intros w.
  - simpl. unfold ret, wave_log. simpl. rewrite app_nil_r.
    destruct w; reflexivity.
  - simpl. unfold bind, report at 1, wave_log.
    simpl omap. destruct (exception f) as [e|]; simpl.
    + rewrite IH. simpl. rewrite <- app_assoc. reflexivity.
    + rewrite IH. reflexivity.
Qed.

(** The loop never raises: it returns the futures of all the items,
    each unit having run once. *)
Lemma fan_out_ran items futures w :
  ∃ new w',
    fan_out as_completed unit msg items futures w
      = (Ok (futures ++ new)%list, w')
    ∧ ran unit items w new w'.
Proof.
  revert futures w. induction items as [|x items IH]; intros futures w.
  - exists [], w. simpl. rewrite app_nil_r.
    split; [reflexivity | constructor; apply only_logs_refl].
  - simpl. unfold bind at 1, submit.
    destruct (unit x w) as [r w1] eqn:Hrun.
    unfold bind at 1. fold report. rewrite wave_logs.
    set (f := Future x r).
    set (w2 := World _ _ _).
    destruct (IH (futures ++ [f])%list w2) as (new & w' & Hfan & Hran).
    exists (f :: new), w'. rewrite Hfan, <- app_assoc.
    split; [reflexivity|].
    econstructor; [exact Hrun | | exact Hran].
    subst w2. repeat split. eexists. reflexivity.
Qed.

(** When the units leave the log alone and every submitted future
    comes out of [as_completed], the exception of every failed unit
    is in the log at the end. *)
Hypothesis unit_keeps_logs : ∀ x w, w_logs (unit x w).2 = w_logs w.
Hypothesis as_completed_all :
  ∀ l : list (future A), as_completed A l ≡ₚ l.

Lemma fan_out_logged items futures w new w' :
  fan_out as_completed unit msg items futures w
    = (Ok (futures ++ new)%list, w') →
  (∀ entry, entry ∈ w_logs w → entry ∈ w_logs w')
  ∧ ∀ f e, f ∈ new → exception f = Some e → LogError msg e ∈ w_logs w'.
Proof.
  revert futures w new. induction items as [|x items IH];
    intros futures w new.
  - simpl. unfold ret. intros [= Hnew <-].
    rewrite <- (app_nil_r futures) in Hnew at 1.
    apply app_inv_head in Hnew as <-.
    split; [auto|]. intros f e Hf. inversion Hf.
  - simpl. unfold bind at 1, submit.
    pose proof (unit_keeps_logs x w) as Hkeep.
    destruct (unit x w) as [r w1] eqn:Hrun. simpl in Hkeep.
    unfold bind at 1. fold report. rewrite wave_logs.
    set (f0 := Future x r).
    set (w2 := World _ _ _).
    destruct (fan_out_ran items (futures ++ [f0])%list w2)
      as (new' & w'' & Hfan & _).
    rewrite Hfan. intros [= Hnew <-].
    rewrite <- app_assoc in Hnew. apply app_inv_head in Hnew as <-.
    destruct (IH _ _ _ Hfan) as [Hmono Hlogged].
    split.
    + intros entry Hentry. apply Hmono. subst w2. simpl.
      rewrite Hkeep. apply elem_of_app. left. exact Hentry.
    + intros f e Hf He. apply elem_of_cons in Hf as [-> | Hf].
      * apply Hmono. subst w2. simpl. apply elem_of_app. right.
        apply elem_of_wave_log with (f := f0); [|exact He].
        rewrite as_completed_all. apply elem_of_app. right.
        apply list_elem_of_singleton. reflexivity.
      * eapply Hlogged; eassumption.
Qed.
End FanOut.


(** ** Actions over many resources *)

Lemma keeps_logs_ret {A} (a : A) : keeps_logs (ret a).
Proof. intros w. reflexivity. Qed.

Lemma keeps_logs_lift {A} (r : result A) : keeps_logs (lift r).
Proof. intros w. reflexivity. Qed.

Lemma keeps_logs_api P c : keeps_logs (api P c).
Proof. intros w. unfold api. destruct (P _ _); reflexivity. Qed.

Lemma keeps_logs_bind {A B} (m : M A) (k : A → M B) :
  keeps_logs m → (∀ a, keeps_logs (k a)) → keeps_logs (bind m k).
Proof.
  intros Hm Hk w. unfold bind. specialize (Hm w).
  destruct (m w) as [[a|e] w1]; simpl in *; [|exact Hm].
  rewrite Hk. exact Hm.
Qed.

Ltac keeps_logs :=
  repeat first
    [ apply keeps_logs_ret | apply keeps_logs_lift | apply keeps_logs_api
    | apply keeps_logs_bind; [| intros ?]
    | match goal with |- keeps_logs (if ?c then _ else _) => destruct c end ].

Section Units.
Variable P : provider.
Variable int_of_str : string → option Z.
Variable snapshot_identifier : string → value → value.

Lemma process_cluster_snapshot_keeps_logs r :
  keeps_logs (process_cluster_snapshot P snapshot_identifier r).
Proof. unfold process_cluster_snapshot. keeps_logs. Qed.

Lemma process_snapshot_retention_keeps_logs data r :
  keeps_logs (process_snapshot_retention P int_of_str data r).
Proof.
  unfold process_snapshot_retention, set_retention_window. keeps_logs.
Qed.

(** The request that the snapshot unit sends for a record, if any. *)
Lemma process_cluster_snapshot_calls r w :
  w_calls (process_cluster_snapshot P snapshot_identifier r w).2 =
    (w_calls w ++ snapshot_requests snapshot_identifier r)%list.
Proof.
  unfold process_cluster_snapshot, snapshot_requests, bind, lift, ret, api.
  destruct (getitem r "DBClusterIdentifier") as [id|e]; simpl.
  - destruct (P _ _); reflexivity.
  - rewrite app_nil_r. reflexivity.
Qed.

Lemma ran_snapshot_requests resources w futures w' :
  ran (process_cluster_snapshot P snapshot_identifier) resources w futures w' →
  w_calls w' =
    (w_calls w ++ flat_map (snapshot_requests snapshot_identifier) resources)%list.
Proof.
  induction 1 as [w w' (Hc & _) | x items w r w1 w2 futures w' Hrun (Hc & _) _ IH].
  - simpl. rewrite app_nil_r. exact Hc.
  - simpl. rewrite IH, Hc, app_assoc. f_equal.
    pose proof (process_cluster_snapshot_calls x w) as Hcalls.
    rewrite Hrun in Hcalls. exact Hcalls.
Qed.

Variable as_completed : ∀ A, list (future A) → list (future A).

(** C8.  The [snapshot] and [retention] actions do not fail fast.  For
    every list of resources, whatever the provider answers and whichever
    units raise, [process] returns (the resources, resp. nothing) and
    does not raise; the unit has run once on every resource, in order,
    each run starting where the previous one ended, and its outcome,
    returned or raised, is kept in a future; the snapshot action has sent
    the request of every resource that has an identifier; and when
    [as_completed] yields every future it is given, the exception of
    every unit that raised is in the log at the end. *)
Theorem actions_do_not_fail_fast
    (data : RetentionData) (resources : list value) (w : world) :
  (∀ A (l : list (future A)), as_completed A l ≡ₚ l) →
  (∃ futures w',
     Snapshot_futures P snapshot_identifier as_completed resources w
       = (Ok futures, w')
     ∧ Snapshot_process P snapshot_identifier as_completed resources w
       = (Ok resources, w')
     ∧ ran (process_cluster_snapshot P snapshot_identifier)
           resources w futures w'
     ∧ w_calls w' =
         (w_calls w
          ++ flat_map (snapshot_requests snapshot_identifier) resources)%list
     ∧ ∀ f e, f ∈ futures → exception f = Some e →
         LogError "Exception creating RDS cluster snapshot  \n %s" e
           ∈ w_logs w')
  ∧ (∃ futures w',
       RetentionWindow_futures P int_of_str as_completed data resources w
         = (Ok futures, w')
       ∧ RetentionWindow_process P int_of_str as_completed data resources w
         = (Ok tt, w')
       ∧ ran (process_snapshot_retention P int_of_str data)
             resources w futures w'
       ∧ ∀ f e, f ∈ futures → exception f = Some e →
           LogError "Exception setting RDS cluster retention  \n %s" e
             ∈ w_logs w').
Proof.
  intros Hall. split.
  - unfold Snapshot_process, Snapshot_futures.
    destruct (fan_out_ran as_completed
                (process_cluster_snapshot P snapshot_identifier)
                "Exception creating RDS cluster snapshot  \n %s"
                resources [] w) as (futures & w' & Hfan & Hran).
    simpl in Hfan. exists futures, w'.
    split; [exact Hfan|]. split; [|split; [exact Hran|split]].
    + unfold bind. rewrite Hfan. reflexivity.
    + apply ran_snapshot_requests with (futures := futures). exact Hran.
    + eapply (fan_out_logged as_completed); [| apply Hall | exact Hfan].
      intros x w0. apply process_cluster_snapshot_keeps_logs.
  - unfold RetentionWindow_process, RetentionWindow_futures.
    destruct (fan_out_ran as_completed
                (process_snapshot_retention P int_of_str data)
                "Exception setting RDS cluster retention  \n %s"
                resources [] w) as (futures & w' & Hfan & Hran).
    simpl in Hfan. exists futures, w'.
    split; [exact Hfan|]. split; [|split; [exact Hran|]].
    + unfold bind. rewrite Hfan. reflexivity.
    + eapply (fan_out_logged as_completed); [| apply Hall | exact Hfan].
      intros x w0. apply process_snapshot_retention_keeps_logs.
Qed.

Variable globals : list string.


End Units.

(** ** The handlers of client errors *)

Lemma ClientError_unbound :
  "ClientError" ∉ (module_globals ++ builtins)%list.
Proof.
  assert (H : bool_decide ("ClientError" ∈ (module_globals ++ builtins)%list)
               = false) by (vm_compute; reflexivity).
  apply bool_decide_eq_false in H. exact H.
Qed.

(** In the module as it is, an exception that reaches an
    [except ClientError] clause is replaced by a [NameError]. *)
Lemma try_except_unbound {A} (body : M A) (handler : exn → M A) w e w' :
  body w = (Raise e, w') →
  try_except module_globals body "ClientError" handler w
    = (Raise (NameError "ClientError"), w').
Proof.
  intros Hbody. unfold try_except. rewrite Hbody.
  rewrite bool_decide_eq_false_2 by exact ClientError_unbound. reflexivity.
Qed.


Section Handlers.
Variable P : provider.
Variable snapshot_identifier : string → value → value.

(** The request of [Delete.process] for one cluster, up to the [try]. *)
Lemma Delete_process_refused data cluster rest w id response :
  getitem cluster "DBClusterIdentifier" = Ok id →
  P (w_calls w) (delete_db_cluster (delete_params snapshot_identifier data id))
    = ApiError response →
  Delete_process P module_globals snapshot_identifier data (cluster :: rest) w
    = (Raise (NameError "ClientError"),
       sent w (delete_db_cluster (delete_params snapshot_identifier data id))).
Proof.
  intros Hid Hrefused. revert Hrefused.
  unfold Delete_process, delete_params, sent. simpl for_each.
  destruct (default false (skip_snapshot data)) eqn:Hskip; intros Hrefused;
    unfold bind, lift, ret; rewrite Hid;
    (erewrite try_except_unbound; [reflexivity|]);
    unfold api; rewrite Hrefused; reflexivity.
Qed.

(** With [ClientError] bound in the module, the handler does what it
    is written for: the state fault is swallowed and the loop goes on,
    any other client error is raised again. *)
Lemma Delete_process_handled globals data cluster rest w id response err code :
  "ClientError" ∈ globals →
  getitem cluster "DBClusterIdentifier" = Ok id →
  P (w_calls w) (delete_db_cluster (delete_params snapshot_identifier data id))
    = ApiError response →
  getitem response "Error" = Ok err →
  getitem err "Code" = Ok code →
  let w1 :=
    sent w (delete_db_cluster (delete_params snapshot_identifier data id)) in
  Delete_process P globals snapshot_identifier data (cluster :: rest) w
    = if eq_str code "InvalidDBClusterStateFault"
      then Delete_process P globals snapshot_identifier data rest w1
      else (Raise (ClientError response), w1).
Proof.
  intros Hbound Hid Hrefused Herr Hcode w1.
  assert (Hin : bool_decide ("ClientError" ∈ (globals ++ builtins)%list) = true).
  { apply bool_decide_eq_true_2, elem_of_app. left. exact Hbound. }
  assert (Htry : ∀ params,
    params = delete_params snapshot_identifier data id →
    try_except globals (do! api P (delete_db_cluster params) in ret true)
      "ClientError" Delete_handler w
    = if eq_str code "InvalidDBClusterStateFault" then (Ok false, w1)
      else (Raise (ClientError response), w1)).
  { intros params ->. unfold try_except, bind at 1, api.
    rewrite Hrefused, Hin. simpl isinstance. cbv iota.
    unfold Delete_handler, bind, lift. rewrite Herr, Hcode.
    destruct (eq_str code "InvalidDBClusterStateFault"); reflexivity. }
  unfold Delete_process. simpl for_each.
  unfold delete_params in Htry.
  destruct (default false (skip_snapshot data)) eqn:Hskip;
    unfold bind at 1; unfold bind at 1; unfold lift at 1; rewrite Hid;
    unfold bind at 1.
  - unfold ret at 1. unfold bind at 1. rewrite (Htry _ eq_refl).
    destruct (eq_str code "InvalidDBClusterStateFault"); reflexivity.
  - unfold bind at 1. unfold lift at 1. unfold ret at 1. unfold bind at 1.
    rewrite (Htry _ eq_refl).
    destruct (eq_str code "InvalidDBClusterStateFault"); reflexivity.
Qed.

(** A batch whose first snapshot the provider refuses. *)
Lemma process_snapshot_set_refused s rest w id response :
  getitem s "DBClusterSnapshotIdentifier" = Ok id →
  P (w_calls w) (delete_db_cluster_snapshot id) = ApiError response →
  process_snapshot_set P module_globals (s :: rest) w
    = (Raise (NameError "ClientError"),
       sent w (delete_db_cluster_snapshot id)).
Proof.
  intros Hid Hrefused. unfold process_snapshot_set. simpl for_each.
  unfold bind at 1. unfold bind at 1.
  erewrite try_except_unbound; [reflexivity|].
  unfold bind, lift, api. rewrite Hid, Hrefused. reflexivity.
Qed.

(** With [ClientError] bound, the handler raises the client error
    again and the rest of the batch is left alone. *)
Lemma process_snapshot_set_reraises globals s rest w id response :
  "ClientError" ∈ globals →
  getitem s "DBClusterSnapshotIdentifier" = Ok id →
  P (w_calls w) (delete_db_cluster_snapshot id) = ApiError response →
  process_snapshot_set P globals (s :: rest) w
    = (Raise (ClientError response), sent w (delete_db_cluster_snapshot id)).
Proof.
  intros Hbound Hid Hrefused.
  assert (Hin : bool_decide ("ClientError" ∈ (globals ++ builtins)%list) = true).
  { apply bool_decide_eq_true_2, elem_of_app. left. exact Hbound. }
  unfold process_snapshot_set. simpl for_each.
  unfold bind at 1. unfold bind at 1. unfold try_except, bind, lift, api.
  rewrite Hid, Hrefused, Hin. reflexivity.
Qed.

End Handlers.

(** C5.  [Delete.process] on two clusters, the first of which the
    provider reports as already deleted ([InvalidDBClusterStateFault]):
    the error is not swallowed.  The name [ClientError] of the [except]
    clause is bound nowhere in the module, so the clause raises
    [NameError], the action stops, and the second cluster is never
    asked to be deleted. *)
Theorem delete_state_fault_not_swallowed :
  Delete_process
    (Samples.refuses "DBClusterIdentifier" "db-1" "InvalidDBClusterStateFault")
    module_globals Samples.snapshot_name {| skip_snapshot := Some true |}
    [Samples.cluster "db-1" 5; Samples.cluster "db-2" 5] Samples.start
  = (Raise (NameError "ClientError"),
     World [delete_db_cluster
              (<["SkipFinalSnapshot" := VBool true]>
               {[ "DBClusterIdentifier" := VStr "db-1" ]})] [] []).
Proof. vm_compute. reflexivity. Qed.

(** The same run in a module that imports [ClientError]: the fault is
    swallowed and the second cluster is deleted. *)
Example delete_state_fault_swallowed_once_imported :
  Delete_process
    (Samples.refuses "DBClusterIdentifier" "db-1" "InvalidDBClusterStateFault")
    ("ClientError" :: module_globals) Samples.snapshot_name
    {| skip_snapshot := Some true |}
    [Samples.cluster "db-1" 5; Samples.cluster "db-2" 5] Samples.start
  = (Ok tt,
     World [delete_db_cluster
              (<["SkipFinalSnapshot" := VBool true]>
               {[ "DBClusterIdentifier" := VStr "db-1" ]});
            delete_db_cluster
              (<["SkipFinalSnapshot" := VBool true]>
               {[ "DBClusterIdentifier" := VStr "db-2" ]})]
           [LogInfo "Deleted RDS cluster: %s" (VStr "db-2")] []).
Proof. vm_compute. reflexivity. Qed.

(** C10.  [process_snapshot_set] on a batch of three snapshots, the
    second of which the provider refuses with a client error: the rest
    of the batch is left alone, but what the unit raises is not the
    client error.  The [except ClientError] clause cannot name its class
    and raises [NameError] in its place. *)
Theorem snapshot_set_client_error_not_reraised :
  process_snapshot_set
    (Samples.refuses "DBClusterSnapshotIdentifier" "s-2"
                     "InvalidDBClusterSnapshotStateFault")
    module_globals
    [Samples.snapshot "s-1"; Samples.snapshot "s-2"; Samples.snapshot "s-3"]
    Samples.start
  = (Raise (NameError "ClientError"),
     World [delete_db_cluster_snapshot (VStr "s-1");
            delete_db_cluster_snapshot (VStr "s-2")] [] []).
Proof. vm_compute. reflexivity. Qed.

(** The same batch in a module that imports [ClientError]: the client
    error itself comes out. *)
Example snapshot_set_client_error_reraised_once_imported :
  process_snapshot_set
    (Samples.refuses "DBClusterSnapshotIdentifier" "s-2"
                     "InvalidDBClusterSnapshotStateFault")
    ("ClientError" :: module_globals)
    [Samples.snapshot "s-1"; Samples.snapshot "s-2"; Samples.snapshot "s-3"]
    Samples.start
  = (Raise (ClientError
              (Samples.error_response "InvalidDBClusterSnapshotStateFault")),
     World [delete_db_cluster_snapshot (VStr "s-1");
            delete_db_cluster_snapshot (VStr "s-2")] [] []).
Proof. vm_compute. reflexivity. Qed.

End RDSClusterSpec.

(** ** The statements at the sample resources *)

Module Instances.
Import Account AccountProps AccountSpec.
Import RDSCluster RDSClusterProps RDSClusterSpec.
Import Samples.
Import Fixtures.

(** The retention step: 5 days raised to 7 with one request, 7 days
    left alone when 5 are asked for. *)
Lemma retention_step_at_samples :
  process_snapshot_retention accepts read_int {| days := Some 7 |}
    (cluster "db-1" 5) start
  = (Ok (cluster "db-1" 5),
     World [modify_db_cluster (VStr "db-1") 7 (VStr "03:00-04:00")
                              (VStr "sun:05:00-sun:06:00")] [] [])
  ∧ process_snapshot_retention accepts read_int {| days := Some 5 |}
      (cluster "db-1" 7) start
    = (Ok VNone, start).
Proof.
  split.
  - apply (proj2 (retention_step_monotonic accepts read_int
                    {| days := Some 7 |} (cluster_fields "db-1" 5) 7 5 start
                    eq_refl eq_refl));
      [lia | reflexivity | reflexivity | reflexivity].
  - apply (proj1 (retention_step_monotonic accepts read_int
                    {| days := Some 5 |} (cluster_fields "db-1" 7) 5 7 start
                    eq_refl eq_refl)).
    lia.
Defined.

Lemma trail_answers status :
  is_Some (match status with
           | VDict st => st !! "IsLogging"
           | _ => None
           end) →
  is_dict status →
  answers (one_trail status) trail.
Proof.
  intros Hlog [st ->]. eexists. split; [reflexivity|].
  intros h. exists st. split; [reflexivity | exact Hlog].
Defined.

(** [check-cloudtrail] on an account without trails, on an account
    whose only trail is logging, and, with ['multi-region'] on, on an
    account that has a trail without ARN that is not multi-region
    beside a trail that is logging. *)
Lemma cloudtrail_decision_at_samples :
  CloudTrailEnabled_process no_trails no_flags account_world
  = (Ok [VDict (<["cloudtrails" := VList []]> account)],
     World [describe_trails] [] [VDict (<["cloudtrails" := VList []]> account)])
  ∧ CloudTrailEnabled_process (one_trail delivering) no_flags account_world
    = (Ok [],
       World [describe_trails; status_check trail] []
             [VDict (<["cloudtrails" :=
                         VList [VDict (<["Status" := delivering]> trail_fields)]]>
                       account)])
  ∧ CloudTrailEnabled_process mixed_trails
      (set_flag MultiRegion (Some true) no_flags) account_world
    = (Ok [],
       World [describe_trails; status_check trail] []
             [VDict (<["cloudtrails" :=
                         VList [VDict ∅;
                                VDict (<["Status" := delivering]> trail_fields)]]>
                       account)]).
Proof.
  split; [|split].
  - apply (proj1 (cloudtrail_annotates_then_decides no_trails no_flags account
                    account_world (VDict {[ "trailList" := VList [] ]}) []
                    eq_refl eq_refl eq_refl)).
    reflexivity.
  - destruct (proj2 (cloudtrail_annotates_then_decides (one_trail delivering)
                       no_flags account account_world
                       (VDict {[ "trailList" := VList [trail] ]}) [trail]
                       eq_refl eq_refl eq_refl))
      as (decided & Hrun & _ & Hdecided).
    + constructor; [eexists; reflexivity | constructor].
    + constructor; [|constructor].
      apply trail_answers; [eexists | eexists]; reflexivity.
    + rewrite Hrun, Hdecided; [reflexivity|].
      exists trail. split; [left|]. split; [reflexivity|].
      intros _. eexists. split; [reflexivity|].
      intros h. eexists. split; reflexivity.
  - destruct (proj2 (cloudtrail_annotates_then_decides mixed_trails
                       (set_flag MultiRegion (Some true) no_flags) account
                       account_world
                       (VDict {[ "trailList" := VList mixed_trail_list ]})
                       mixed_trail_list eq_refl eq_refl eq_refl))
      as (decided & Hrun & _ & Hdecided).
    + repeat constructor; eexists; reflexivity.
    + constructor; [|constructor].
      eexists. split; [reflexivity|].
      intros h. eexists. split; [reflexivity | eexists; reflexivity].
    + rewrite Hrun, Hdecided; [reflexivity|].
      exists trail. split; [right; left|]. split; [reflexivity|].
      intros _. eexists. split; [reflexivity|].
      intros h. eexists. split; reflexivity.
Defined.


(** Sixteen instances of twenty allowed match; a quota of zero and a
    quota that is not listed do not. *)
Lemma eighty_percent_at_samples :
  (AccountMaxInstances_call quotas read_int (VDict account) start).1 = Ok true
  ∧ (AccountMaxElasticIPs_call quotas read_int (VDict account) start).1
    = Ok false
  ∧ (AccountMaxVpcElasticIPs_call quotas read_int (VDict account) start).1
    = Ok false.
Proof.
  destruct (eighty_percent_filters_guarded quotas read_int (VDict account))
    as (Hinstances & Hclassic & Hvpc).
  split; [|split].
  - destruct (Hinstances start) as [_ H].
    edestruct H as [_ Hpos]; [reflexivity | reflexivity |].
    rewrite (Hpos 20 eq_refl eq_refl). reflexivity.
  - destruct (Hclassic start) as [_ H].
    edestruct H as [Hzero _]; [reflexivity | reflexivity |].
    rewrite (Hzero (or_intror eq_refl)). reflexivity.
  - destruct (Hvpc start) as [_ H].
    edestruct H as [Hnone _]; [reflexivity | reflexivity |].
    rewrite (Hnone (or_introl eq_refl)). reflexivity.
Defined.


(** On a record that carries a summary, [iam-summary] decides without
    a request. *)
Lemma cached_summary_at_samples :
  IAMSummary_process accepts access_keys_present summarised_world
  = (Ok (w_resources summarised_world), summarised_world).
Proof.
  exact (proj1 (proj1 (cached_annotation_is_reused accepts
                         access_keys_present summarised_world
                         (<["iam_summary" := summary]> account) [] summary
                         eq_refl eq_refl) eq_refl)).
Defined.

(** Ten clusters, the fourth of which the provider refuses to
    snapshot: ten futures, ten requests. *)
Lemma ten_units_at_samples :
  ∃ futures w',
    Snapshot_process (refuses "DBClusterIdentifier" "db-4" "Throttling")
      snapshot_name in_order ten_clusters start = (Ok ten_clusters, w')
    ∧ fut_arg <$> futures = ten_clusters
    ∧ length (w_calls w') = 10%nat.
Proof.
  destruct (actions_do_not_fail_fast
              (refuses "DBClusterIdentifier" "db-4" "Throttling")
              read_int snapshot_name in_order {| days := Some 7 |}
              ten_clusters start (λ A l, reflexivity l))
    as [(futures & w' & _ & Hprocess & Hran & Hcalls & _) _].
  exists futures, w'. split; [exact Hprocess|]. split.
  - eapply ran_args. exact Hran.
  - rewrite Hcalls. reflexivity.
Defined.

(** The filters on an empty resource list. *)
Lemma empty_resources_at_samples :
  IAMSummary_process accepts access_keys_present start
  = (Raise IndexError, start)
  ∧ (CloudTrailEnabled_process no_trails no_flags start).1 = Raise IndexError.
Proof.
  destruct (account_filters_need_a_resource no_trails access_keys_present
              start eq_refl) as (Hiam & _ & Htrail & _).
  split; [exact Hiam|].
  apply (proj2 (Htrail no_flags) (VDict {[ "trailList" := VList [] ]})
               (VList [])); reflexivity.
Defined.

(** ** Runs at the sample resources *)

(** The status that the running check stores into a trail shows in
    the ['cloudtrails'] annotation: the trail objects are shared. *)
Example cloudtrail_status_shows_in_annotation :
  CloudTrailEnabled_process (one_trail delivering) no_flags account_world
  = (Ok [],
     World [describe_trails;
            get_trail_status (VStr "arn:aws:cloudtrail:trail/main")] []
           [VDict (<["cloudtrails" :=
                       VList [VDict (<["Status" := delivering]> trail_fields)]]>
                     account)]).
Proof. vm_compute. reflexivity. Qed.

(** A trail that is not logging leaves the account non-compliant
    unless ['running'] is set to false. *)
Example stopped_trail_is_reported :
  (CloudTrailEnabled_process (one_trail stopped) no_flags account_world).1
  = Ok [VDict (<["cloudtrails" :=
                   VList [VDict (<["Status" := stopped]> trail_fields)]]>
                 account)]
  ∧ (CloudTrailEnabled_process (one_trail stopped)
       (set_flag Running (Some false) no_flags) account_world).1
    = Ok [].
Proof. split; vm_compute; reflexivity. Qed.

(** A password policy that comes back empty is stored as it is, and
    being empty it is looked up again by the next evaluation. *)
Example empty_policy_is_fetched_again :
  let always (_ : value) : result bool := Ok true in
  let first := AccountPasswordPolicy_process accepts always account_world in
  let second := AccountPasswordPolicy_process accepts always first.2 in
  w_calls first.2 = [get_account_password_policy]
  ∧ w_calls second.2 =
      [get_account_password_policy; get_account_password_policy].
Proof. vm_compute. split; reflexivity. Qed.

(** Ten units of which the fourth raises: every request is sent, one
    future holds an exception, and the exception is logged in the wave
    of its unit and in each of the six that follow. *)
Example ten_units_one_failure :
  let out :=
    Snapshot_futures (refuses "DBClusterIdentifier" "db-4" "Throttling")
      snapshot_name in_order ten_clusters start in
  let failure := ClientError (error_response "Throttling") in
  match out.1 with
  | Ok futures => exception <$> futures
  | Raise _ => []
  end = [None; None; None; Some failure; None; None; None; None; None; None]
  ∧ length (w_calls out.2) = 10%nat
  ∧ w_logs out.2 =
      replicate 7 (LogError "Exception creating RDS cluster snapshot  \n %s"
                            failure).
Proof. vm_compute. repeat split. Qed.

End Instances.

(** * Further properties *)

Lemma field_ok k r v : getitem r k = Ok v → Records.field k r = v.
Proof. unfold Records.field. intros ->. reflexivity. Qed.

(** ** [rdscluster.py] *)

Module RDSClusterFacts.
Import RDSCluster RDSClusterProps RDSClusterSpec Records RDSClusterMoreProps.

(** ** Requests of a run of units *)

Lemma ran_requests {A} (unit : A → M value)
    (Q : A → list api_call → Prop) items w futures w' :
  (∀ x w0, x ∈ items →
     ∃ s, w_calls (unit x w0).2 = (w_calls w0 ++ s)%list ∧ Q x s) →
  ran unit items w futures w' →
  ∃ ss, w_calls w' = (w_calls w ++ concat ss)%list ∧ Forall2 Q items ss.
Proof.
  intros Hunit Hran.
  induction Hran as [w w' (Hc & _)
                    | x items w r w1 w2 futures w' Hrun (Hc & _) _ IH].
  - exists []. simpl. rewrite app_nil_r. split; [exact Hc | constructor].
  - destruct (Hunit x w) as (s & Hs & HQ); [left|].
    rewrite Hrun in Hs. simpl in Hs.
    destruct IH as (ss & Hss & Hall).
    { intros y w0 Hy. apply Hunit. right. exact Hy. }
    exists (s :: ss). split; [|constructor; assumption].
    rewrite Hss, Hc, Hs. simpl. rewrite app_assoc. reflexivity.
Qed.

(** ** The retention step and the retention action *)

Section Retention.
Variable P : provider.
Variable int_of_str : string → option Z.
Variable data : RetentionData.

Lemma retention_step_requests r w :
  let out := process_snapshot_retention P int_of_str data r w in
  w_logs out.2 = w_logs w
  ∧ w_resources out.2 = w_resources w
  ∧ ∃ s, w_calls out.2 = (w_calls w ++ s)%list
         ∧ at_most_a_raise int_of_str data r s.
Proof.
  unfold process_snapshot_retention, set_retention_window, at_most_a_raise,
    raises_retention, bind, lift, ret, api. cbv zeta.
  assert (Hnone : ∀ s : list api_call, s = [] →
            ∃ s', (w_calls w = w_calls w ++ s')%list
                  ∧ (s' = [] ∨ ∃ c, s' = [c] ∧ ∃ id d cur backup maintenance,
                       days data = Some d
                       ∧ rbind (get r "BackupRetentionPeriod" (VInt 0))
                               (Py.int int_of_str) = Ok cur
                       ∧ cur < d
                       ∧ getitem r "DBClusterIdentifier" = Ok id
                       ∧ getitem r "PreferredBackupWindow" = Ok backup
                       ∧ getitem r "PreferredMaintenanceWindow" = Ok maintenance
                       ∧ c = modify_db_cluster id d backup maintenance)).
  { intros s ->. exists []. rewrite app_nil_r. split; [reflexivity | left; reflexivity]. }
  destruct (get r "BackupRetentionPeriod" (VInt 0)) as [v|e] eqn:Hget;
    [|simpl; repeat split; eauto].
  destruct (Py.int int_of_str v) as [cur|e] eqn:Hint;
    [|simpl; repeat split; eauto].
  destruct (days data) as [d|] eqn:Hdays; [|simpl; repeat split; eauto].
  destruct (Z.ltb_spec cur d) as [Hlt|Hge]; [|simpl; repeat split; eauto].
  destruct (getitem r "DBClusterIdentifier") as [id|e] eqn:Hid;
    [|simpl; repeat split; eauto].
  destruct (getitem r "PreferredBackupWindow") as [backup|e] eqn:Hb;
    [|simpl; repeat split; eauto].
  destruct (getitem r "PreferredMaintenanceWindow") as [maintenance|e] eqn:Hm;
    [|simpl; repeat split; eauto].
  assert (Hmax : Py.max cur d = d).
  { unfold Py.max. destruct (Z.ltb_spec cur d); [reflexivity | lia]. }
  rewrite Hmax.
  assert (Hsent : ∃ s', (w_calls w ++ [modify_db_cluster id d backup maintenance]
                         = w_calls w ++ s')%list
                  ∧ (s' = [] ∨ ∃ c, s' = [c] ∧ ∃ id0 d0 cur0 backup0 maintenance0,
                       Some d = Some d0
                       ∧ rbind (Ok v) (Py.int int_of_str) = Ok cur0
                       ∧ cur0 < d0
                       ∧ Ok id = Ok id0
                       ∧ Ok backup = Ok backup0
                       ∧ Ok maintenance = Ok maintenance0
                       ∧ c = modify_db_cluster id0 d0 backup0 maintenance0)).
  { eexists. split; [reflexivity|]. right. eexists. split; [reflexivity|].
    exists id, d, cur, backup, maintenance. simpl. rewrite Hint. auto 10. }
  destruct (P _ _); simpl; repeat split; exact Hsent.
Qed.

Variable as_completed : ∀ A, list (future A) → list (future A).

(** X1.  Whatever the record holds and whatever the provider answers,
    one step of the retention action leaves the log and the resources
    alone and sends nothing, or sends exactly one request: a
    [modify_db_cluster] that sets the configured days, above the
    record's current period, with the record's own identifier and
    windows.  A record that lacks a field, or a configuration without
    ['days'], makes the step raise before anything is sent. *)
Theorem retention_step_only_raises (r : value) (w : world) :
  let out := process_snapshot_retention P int_of_str data r w in
  w_logs out.2 = w_logs w
  ∧ w_resources out.2 = w_resources w
  ∧ (w_calls out.2 = w_calls w
     ∨ ∃ c, w_calls out.2 = (w_calls w ++ [c])%list
            ∧ raises_retention int_of_str data r c).
Proof.
  destruct (retention_step_requests r w) as (Hlogs & Hres & s & Hs & Hraise).
  cbv zeta. split; [exact Hlogs|]. split; [exact Hres|].
  destruct Hraise as [-> | (c & -> & Hc)].
  - left. rewrite Hs, app_nil_r. reflexivity.
  - right. exists c. split; assumption.
Qed.

(** X2.  The requests of the whole retention action are, resource by
    resource and in order, nothing or one raise of that resource's
    retention, whichever units fail; on clusters that are all at the
    configured retention or above the action sends nothing. *)
Theorem retention_action_only_raises (resources : list value) (w : world) :
  let out := RetentionWindow_process P int_of_str as_completed data resources w in
  (∃ ss, w_calls out.2 = (w_calls w ++ concat ss)%list
         ∧ Forall2 (at_most_a_raise int_of_str data) resources ss)
  ∧ (Forall (at_target int_of_str data) resources →
     w_calls out.2 = w_calls w).
Proof.
  cbv zeta. unfold RetentionWindow_process, RetentionWindow_futures.
  destruct (fan_out_ran as_completed (process_snapshot_retention P int_of_str data)
              "Exception setting RDS cluster retention  \n %s" resources [] w)
    as (futures & w' & Hfan & Hran).
  unfold bind. rewrite Hfan. cbn [ret snd].
  destruct (ran_requests _ (at_most_a_raise int_of_str data) _ _ _ _
              (λ x w0 _, proj2 (proj2 (retention_step_requests x w0))) Hran)
    as (ss & Hss & Hall).
  split; [exists ss; split; assumption|].
  intros Htarget. rewrite Hss.
  replace (concat ss) with (@nil api_call); [apply app_nil_r|].
  clear Hss Hran Hfan. induction Hall as [|r s resources ss Hs _ IH];
    [reflexivity|].
  apply Forall_cons in Htarget as [(d & cur & Hd & Hcur & Hle) Hrest].
  simpl. rewrite <- (IH Hrest), app_nil_r.
  destruct Hs as [-> | (c & _ & id & d' & cur' & bw & mw & Hd' & Hcur' & Hlt & _)];
    [reflexivity|].
  rewrite Hd in Hd'. injection Hd' as <-.
  rewrite Hcur in Hcur'. injection Hcur' as <-. lia.
Qed.

End Retention.


(** ** [Delete.process] when nothing is refused *)

Section Delete.
Variable P : provider.
Variable globals : list string.
Variable snapshot_identifier : string → value → value.
Variable data : DeleteData.

(** One turn of the loop for a cluster whose request is accepted. *)
Lemma Delete_process_accepted cluster rest w v :
  has_field "DBClusterIdentifier" cluster →
  P (w_calls w) (delete_request snapshot_identifier data cluster) = ApiOk v →
  Delete_process P globals snapshot_identifier data (cluster :: rest) w
  = Delete_process P globals snapshot_identifier data rest
      (World (w_calls w ++ [delete_request snapshot_identifier data cluster])
             (w_logs w ++ [delete_log cluster]) (w_resources w)).
Proof.
  intros [id Hid]. unfold delete_request, delete_log, delete_params.
  rewrite (field_ok _ _ _ Hid). intros HP.
  unfold Delete_process. simpl for_each.
  destruct (default false (skip_snapshot data)) eqn:Hskip;
    unfold bind at 1; unfold bind at 1; unfold lift at 1; rewrite Hid;
    unfold bind at 1.
  - unfold ret at 1. unfold bind at 1. unfold try_except, bind at 1, api.
    rewrite HP. unfold ret at 1. unfold bind at 1, lift at 1, log.
    reflexivity.
  - unfold bind at 1. unfold lift at 1. unfold ret at 1. unfold bind at 1.
    unfold try_except, bind at 1, api.
    rewrite HP. unfold ret at 1. unfold bind at 1, lift at 1, log.
    reflexivity.
Qed.

Lemma Delete_process_no_identifier cluster rest w e :
  getitem cluster "DBClusterIdentifier" = Raise e →
  Delete_process P globals snapshot_identifier data (cluster :: rest) w
  = (Raise e, w).
Proof.
  intros Hid. unfold Delete_process. simpl for_each.
  unfold bind at 1. unfold bind at 1. unfold lift at 1. rewrite Hid.
  reflexivity.
Qed.

(** X3.  When every cluster has its identifier and the provider accepts
    the deletions, [Delete.process] returns after one
    [delete_db_cluster] per cluster, in the order of the list, each
    followed by its log line; the request skips the final snapshot or
    names one made of ['Final'] and the identifier, as ['skip-snapshot']
    says.  This holds whether or not the module binds [ClientError]: the
    [except] clause is never reached. *)
Theorem delete_sends_one_request_per_cluster (resources : list value) (w : world) :
  Forall (has_field "DBClusterIdentifier") resources →
  accepts_operation P "delete_db_cluster" →
  Delete_process P globals snapshot_identifier data resources w
  = (Ok tt,
     World (w_calls w ++ (delete_request snapshot_identifier data <$> resources))
           (w_logs w ++ (delete_log <$> resources))
           (w_resources w)).
Proof.
  intros Hids Haccepts. revert w.
  induction Hids as [|cluster resources Hid _ IH]; intros w.
  - cbn. rewrite !app_nil_r. destruct w; reflexivity.
  - destruct (Haccepts (w_calls w) (delete_request snapshot_identifier data cluster)
                eq_refl) as [v HP].
    rewrite (Delete_process_accepted cluster resources w v Hid HP), IH.
    cbn [w_calls w_logs w_resources]. rewrite !fmap_cons, <- !app_assoc.
    reflexivity.
Qed.

(** X4.  A cluster record without its identifier stops [Delete.process]
    with the error of the subscript, raised before the [try]: the
    clusters before it have been deleted and logged, and neither it nor
    any cluster after it is asked to be deleted. *)
Theorem delete_stops_at_missing_identifier
    (before after : list value) (cluster : value) (e : exn) (w : world) :
  Forall (has_field "DBClusterIdentifier") before →
  accepts_operation P "delete_db_cluster" →
  getitem cluster "DBClusterIdentifier" = Raise e →
  Delete_process P globals snapshot_identifier data
    (before ++ cluster :: after) w
  = (Raise e,
     World (w_calls w ++ (delete_request snapshot_identifier data <$> before))
           (w_logs w ++ (delete_log <$> before))
           (w_resources w)).
Proof.
  intros Hids Haccepts Hmissing. revert w.
  induction Hids as [|c before Hid _ IH]; intros w.
  - cbn [app]. rewrite (Delete_process_no_identifier _ _ _ _ Hmissing).
    cbn. rewrite !app_nil_r. destruct w; reflexivity.
  - destruct (Haccepts (w_calls w) (delete_request snapshot_identifier data c)
                eq_refl) as [v HP].
    cbn [app].
    rewrite (Delete_process_accepted c _ w v Hid HP), IH.
    cbn [w_calls w_logs w_resources]. rewrite !fmap_cons, <- !app_assoc.
    reflexivity.
Qed.

End Delete.


(** ** The bulk delete of snapshots *)

Lemma ran_outcomes {A} (unit : A → M value)
    (R : A → result value → Prop) items w futures w' :
  (∀ x w0, x ∈ items → R x (unit x w0).1) →
  ran unit items w futures w' →
  Forall2 (λ x f, fut_arg f = x ∧ R x (fut_outcome f)) items futures.
Proof.
  intros Hunit Hran.
  induction Hran as [| x items w r w1 w2 futures w' Hrun _ _ IH];
    [constructor|].
  constructor.
  - split; [reflexivity|]. cbn [fut_outcome].
    pose proof (Hunit x w (list_elem_of_here _ _)) as H.
    rewrite Hrun in H. exact H.
  - apply IH. intros y w0 Hy. apply Hunit. right. exact Hy.
Qed.

Lemma concat_of_map {A B} (g : A → list B) items ss :
  Forall2 (λ x s, s = g x) items ss → concat ss = flat_map g items.
Proof. induction 1 as [|x s items ss -> _ IH]; simpl; congruence. Qed.

Lemma flat_map_fmap {A B} (f : A → B) (ll : list (list A)) :
  flat_map (fmap (M := list) f) ll = f <$> concat ll.
Proof.
  induction ll as [|l ll IH]; [reflexivity|].
  simpl. rewrite fmap_app, IH. reflexivity.
Qed.

Lemma elem_of_chunk {A} (l b : list A) size x :
  (0 < size)%nat → b ∈ chunks l size → x ∈ b → x ∈ l.
Proof.
  intros Hsize Hb Hx. rewrite <- (chunks_concat size Hsize l).
  apply list_elem_of_In, in_concat. exists b.
  split; apply list_elem_of_In; assumption.
Qed.

Section SnapshotDelete.
Variable P : provider.
Variable as_completed : ∀ A, list (future A) → list (future A).

Lemma process_snapshot_set_step globals s rest w v :
  has_field "DBClusterSnapshotIdentifier" s →
  P (w_calls w) (snapshot_delete_request s) = ApiOk v →
  process_snapshot_set P globals (s :: rest) w
  = process_snapshot_set P globals rest (sent w (snapshot_delete_request s)).
Proof.
  intros [id Hid]. unfold snapshot_delete_request.
  rewrite (field_ok _ _ _ Hid). intros HP.
  unfold process_snapshot_set. simpl for_each.
  unfold bind at 1. unfold bind at 1. unfold try_except, bind at 1, lift at 1.
  rewrite Hid. unfold bind at 1, api. rewrite HP. reflexivity.
Qed.

Lemma process_snapshot_set_accepted globals batch w :
  accepts_operation P "delete_db_cluster_snapshot" →
  Forall (has_field "DBClusterSnapshotIdentifier") batch →
  process_snapshot_set P globals batch w
  = (Ok VNone,
     World (w_calls w ++ (snapshot_delete_request <$> batch))
           (w_logs w) (w_resources w)).
Proof.
  intros Haccepts Hids. revert w.
  induction Hids as [|s batch Hid _ IH]; intros w.
  - cbn. rewrite app_nil_r. destruct w; reflexivity.
  - destruct (Haccepts (w_calls w) (snapshot_delete_request s) eq_refl)
      as [v HP].
    rewrite (process_snapshot_set_step globals s batch w v Hid HP), IH.
    unfold sent. cbn [w_calls w_logs w_resources].
    rewrite fmap_cons, <- app_assoc. reflexivity.
Qed.

(** In the module as it is, a batch runs up to its first snapshot
    without identifier; there the subscript fails inside the [try], and
    the clause that cannot name [ClientError] raises [NameError]. *)
Lemma process_snapshot_set_as_it_is batch w :
  accepts_operation P "delete_db_cluster_snapshot" →
  process_snapshot_set P module_globals batch w
  = (if complete batch then Ok VNone else Raise (NameError "ClientError"),
     World (w_calls w ++ (snapshot_delete_request <$> with_identifier batch))
           (w_logs w) (w_resources w)).
Proof.
  intros Haccepts. revert w.
  induction batch as [|s batch IH]; intros w.
  - cbn. rewrite app_nil_r. destruct w; reflexivity.
  - cbn [complete with_identifier forallb].
    destruct (getitem s "DBClusterSnapshotIdentifier") as [id|e] eqn:Hid.
    + destruct (Haccepts (w_calls w) (snapshot_delete_request s) eq_refl)
        as [v HP].
      rewrite (process_snapshot_set_step module_globals s batch w v
                 (ex_intro _ id Hid) HP), IH.
      unfold sent. cbn [w_calls w_logs w_resources andb].
      rewrite fmap_cons, <- app_assoc. reflexivity.
    + unfold process_snapshot_set. simpl for_each.
      unfold bind at 1. unfold bind at 1.
      erewrite try_except_unbound.
      * cbn. rewrite app_nil_r. destruct w; reflexivity.
      * unfold bind, lift. rewrite Hid. reflexivity.
Qed.

(** X5.  When every snapshot has its identifier and the provider
    accepts the deletions, the bulk delete asks for each snapshot to be
    deleted exactly once, in the reverse of the order of the list, and
    every unit returns. *)
Theorem snapshots_deleted_once_in_reverse
    (globals : list string) (snapshots : list value) (w : world) :
  Forall (has_field "DBClusterSnapshotIdentifier") snapshots →
  accepts_operation P "delete_db_cluster_snapshot" →
  ∃ futures w',
    RDSClusterSnapshotDelete_futures P globals as_completed snapshots w
      = (Ok futures, w')
    ∧ w_calls w' = (w_calls w ++ (snapshot_delete_request <$> rev snapshots))%list
    ∧ Forall (λ f, fut_outcome f = Ok VNone) futures.
Proof.
  intros Hids Haccepts.
  assert (Hconcat : concat (chunks (rev snapshots) 50) = rev snapshots)
    by (apply chunks_concat; lia).
  unfold RDSClusterSnapshotDelete_futures, bind at 1, log.
  set (w0 := World _ _ _).
  destruct (fan_out_ran as_completed (process_snapshot_set P globals)
              "Exception deleting snapshot set \n %s"
              (chunks (rev snapshots) 50) [] w0)
    as (futures & w' & Hfan & Hran).
  exists futures, w'. split; [exact Hfan|].
  assert (Hbatch : ∀ b, b ∈ chunks (rev snapshots) 50 →
            Forall (has_field "DBClusterSnapshotIdentifier") b).
  { intros b Hb. apply Forall_forall. intros s Hs.
    rewrite Forall_forall in Hids. apply Hids.
    apply list_elem_of_In, in_rev, list_elem_of_In.
    eapply (elem_of_chunk _ b 50); [lia | exact Hb | exact Hs]. }
  split.
  - destruct (ran_requests _ (λ b s, s = snapshot_delete_request <$> b)
                _ _ _ _
                (λ b w1 Hb, ex_intro _ _
                   (conj (f_equal (λ o, w_calls o.2)
                            (process_snapshot_set_accepted globals b w1
                               Haccepts (Hbatch b Hb)))
                         eq_refl)) Hran)
      as (ss & Hss & Hall).
    rewrite Hss. subst w0. cbn [w_calls]. f_equal.
    rewrite (concat_of_map _ _ _ Hall), flat_map_fmap, Hconcat. reflexivity.
  - pose proof (ran_outcomes _ (λ b r, r = Ok VNone) _ _ _ _
                  (λ b w1 Hb, f_equal fst
                     (process_snapshot_set_accepted globals b w1
                        Haccepts (Hbatch b Hb))) Hran) as Hout.
    cbn [app]. clear -Hout.
    induction Hout as [|b f bs fs [_ Hf] _ IH]; constructor; assumption.
Qed.

(** X6.  In the module as it is, a snapshot record without identifier
    costs the rest of its batch and no more: the bulk delete still
    returns, each batch has sent its deletions up to the first snapshot
    without identifier, the batches after it run all the same, and the
    future of a batch that was cut short holds the [NameError] of the
    [except] clause. *)
Theorem snapshot_batches_fail_apart (snapshots : list value) (w : world) :
  accepts_operation P "delete_db_cluster_snapshot" →
  ∃ futures w',
    RDSClusterSnapshotDelete_futures P module_globals as_completed snapshots w
      = (Ok futures, w')
    ∧ w_calls w' =
        (w_calls w
         ++ flat_map (λ b, snapshot_delete_request <$> with_identifier b)
                     (chunks (rev snapshots) 50))%list
    ∧ Forall2 (λ b f, fut_arg f = b
                      ∧ fut_outcome f =
                          if complete b then Ok VNone
                          else Raise (NameError "ClientError"))
              (chunks (rev snapshots) 50) futures.
Proof.
  intros Haccepts.
  unfold RDSClusterSnapshotDelete_futures, bind at 1, log.
  set (w0 := World _ _ _).
  destruct (fan_out_ran as_completed (process_snapshot_set P module_globals)
              "Exception deleting snapshot set \n %s"
              (chunks (rev snapshots) 50) [] w0)
    as (futures & w' & Hfan & Hran).
  exists futures, w'. split; [exact Hfan|]. split.
  - destruct (ran_requests _
                (λ b s, s = snapshot_delete_request <$> with_identifier b)
                _ _ _ _
                (λ b w1 _, ex_intro _ _
                   (conj (f_equal (λ o, w_calls o.2)
                            (process_snapshot_set_as_it_is b w1 Haccepts))
                         eq_refl)) Hran)
      as (ss & Hss & Hall).
    rewrite Hss, (concat_of_map _ _ _ Hall). reflexivity.
  - exact (ran_outcomes _
             (λ b r, r = if complete b then Ok VNone
                         else Raise (NameError "ClientError"))
             _ _ _ _
             (λ b w1 _, f_equal fst
                (process_snapshot_set_as_it_is b w1 Haccepts)) Hran).
Qed.

End SnapshotDelete.

(** ** What the loop logs *)

Section Logging.
Variable as_completed : ∀ A, list (future A) → list (future A).
Hypothesis as_completed_all :
  ∀ A (l : list (future A)), as_completed A l ≡ₚ l.

Lemma fan_out_log_lines {A} (unit : A → M value) msg items futures w new w' :
  (∀ x w0, w_logs (unit x w0).2 = w_logs w0) →
  fan_out as_completed unit msg items futures w
    = (Ok (futures ++ new)%list, w') →
  w_logs w' ≡ₚ (w_logs w ++ flat_map (wave_log msg) (waves futures new))%list.
Proof.
  intros Hkeep. revert futures w new.
  induction items as [|x items IH]; intros futures w new.
  - simpl. unfold ret. intros [= Hnew <-].
    rewrite <- (app_nil_r futures) in Hnew at 1.
    apply app_inv_head in Hnew as <-. simpl. rewrite app_nil_r. reflexivity.
  - simpl. unfold bind at 1, submit.
    pose proof (Hkeep x w) as Hlogs.
    destruct (unit x w) as [r w1] eqn:Hrun. simpl in Hlogs.
    unfold bind at 1.
    rewrite (wave_logs msg (as_completed A (futures ++ [Future x r])) w1).
    set (f0 := Future x r).
    set (w2 := World _ _ _).
    destruct (fan_out_ran as_completed unit msg items (futures ++ [f0])%list w2)
      as (new' & w'' & Hfan & _).
    rewrite Hfan. intros [= Hnew <-].
    rewrite <- app_assoc in Hnew. apply app_inv_head in Hnew as <-.
    rewrite (IH _ _ _ Hfan). subst w2. cbn [w_logs waves flat_map].
    rewrite Hlogs, <- app_assoc. apply Permutation_app_head.
    apply Permutation_app_tail. unfold wave_log.
    rewrite as_completed_all. reflexivity.
Qed.

(** X7.  The loop of the concurrent actions goes through all the
    futures submitted so far after every submission.  So the log of the
    snapshot action gains, for each resource in turn, one line for
    every unit up to that resource that raised, and nothing else: the
    exception of a unit is logged again after each later submission. *)
Theorem snapshot_failures_logged_every_wave
    (P : provider) (snapshot_identifier : string → value → value)
    (resources : list value) (w : world) :
  ∃ futures w',
    Snapshot_futures P snapshot_identifier as_completed resources w
      = (Ok futures, w')
    ∧ w_logs w' ≡ₚ
        (w_logs w
         ++ flat_map (wave_log "Exception creating RDS cluster snapshot  \n %s")
                     (waves [] futures))%list.
Proof.
  unfold Snapshot_futures.
  destruct (fan_out_ran as_completed
              (process_cluster_snapshot P snapshot_identifier)
              "Exception creating RDS cluster snapshot  \n %s" resources [] w)
    as (futures & w' & Hfan & _).
  exists futures, w'. split; [exact Hfan|].
  eapply fan_out_log_lines; [|exact Hfan].
  intros x w0. apply process_cluster_snapshot_keeps_logs.
Qed.

End Logging.

End RDSClusterFacts.

(** ** [account.py] *)

Module AccountFacts.
Import Account AccountProps AccountSpec Records AccountManager AccountMoreProps.

Section Manager.
Variable P : provider.
Variable get_account_id : M value.
Variable filter_resources : list value → M (list value).

(** X8.  [Account.resources] hands the filter chain exactly one record.
    Its name is the first alias of the account, or the empty string when
    the response has no ['AccountAliases'] at all; but when the
    response lists no alias, the subscript of the empty list raises
    [IndexError] and the filters are never run. *)
Theorem account_name_is_first_alias
    (w w0 : world) (id : value) (d : gmap string value) :
  get_account_id w = (Ok id, w0) →
  P (w_calls w0) list_account_aliases = ApiOk (VDict d) →
  let w1 := after w0 list_account_aliases in
  (d !! "AccountAliases" = None →
     Account_resources P get_account_id filter_resources w
     = filter_resources [account_record id (VStr "")] w1)
  ∧ (∀ alias others,
       d !! "AccountAliases" = Some (VList (alias :: others)) →
       Account_resources P get_account_id filter_resources w
       = filter_resources [account_record id alias] w1)
  ∧ (d !! "AccountAliases" = Some (VList []) →
     Account_resources P get_account_id filter_resources w
     = (Raise IndexError, w1)).
Proof.
  intros Hid HP w1.
  unfold Account_resources.
  split; [|split].
  - intros Hnone. unfold bind at 1. rewrite Hid.
    unfold bind at 1, api. rewrite HP. fold (after w0 list_account_aliases).
    unfold bind, lift, get. rewrite Hnone. reflexivity.
  - intros alias others Hsome. unfold bind at 1. rewrite Hid.
    unfold bind at 1, api. rewrite HP. fold (after w0 list_account_aliases).
    unfold bind, lift, get. rewrite Hsome. reflexivity.
  - intros Hempty. unfold bind at 1. rewrite Hid.
    unfold bind at 1, api. rewrite HP. fold (after w0 list_account_aliases).
    unfold bind, lift, get. rewrite Hempty. reflexivity.
Qed.

End Manager.

(** ** [check-cloudtrail], case by case *)

Lemma fmap_snd_filter_imap (p : value → bool) (f : nat → nat) ts :
  (List.filter (λ it : nat * value, p it.2) (imap (λ i x, (f i, x)) ts)).*2
  = List.filter p ts.
Proof.
  revert f. induction ts as [|t ts IH]; intros f; [reflexivity|].
  rewrite imap_cons. simpl. destruct (p t); simpl; [f_equal|]; apply (IH (f ∘ S)).
Qed.

Lemma sifted_trails data ts :
  (sift (static_tests data) (imap pair ts)).*2
  = List.filter (static_ok data) ts.
Proof.
  rewrite sift_filter. apply (fmap_snd_filter_imap (static_ok data) id).
Qed.

Lemma nonempty_sift data ts :
  nonempty (sift (static_tests data) (imap pair ts))
  = existsb (static_ok data) ts.
Proof.
  pose proof (sifted_trails data ts) as H.
  destruct (sift (static_tests data) (imap pair ts)) as [|it l] eqn:E.
  - symmetry. simpl. apply not_true_is_false. intros Hex.
    apply existsb_exists in Hex as (t & Ht & Hok).
    assert (Hin : In t (List.filter (static_ok data) ts))
      by (apply filter_In; auto).
    rewrite <- H in Hin. inversion Hin.
  - symmetry. simpl. apply existsb_exists. exists it.2.
    apply filter_In. rewrite <- H. left. reflexivity.
Qed.

(** X9.  With ['running'] set to false and trails that are mappings,
    [check-cloudtrail] sends the one request that lists the trails and
    never asks for a status; it stores the list as it came under
    ['cloudtrails'], and the account is compliant exactly when some
    trail passes every enabled sub-predicate. *)
Theorem cloudtrail_decision_without_status
    (P : provider) (data : CloudTrailData) (acct : gmap string value)
    (rest : list value) (w : world) (resp : value) (ts : list value) :
  enabled_by_default (running data) = false →
  w_resources w = VDict acct :: rest →
  P (w_calls w) describe_trails = ApiOk resp →
  getitem resp "trailList" = Ok (VList ts) →
  Forall is_dict ts →
  let w1 := World (w_calls w ++ [describe_trails]) (w_logs w)
                  (VDict (<["cloudtrails" := VList ts]> acct) :: rest) in
  CloudTrailEnabled_process P data w
  = (if existsb (static_ok data) ts then Ok [] else Ok (w_resources w1), w1).
Proof.
  intros Hoff Hres HP Hraw Hdict w1.
  destruct (trails_chain P data w acct rest resp ts Hres HP Hraw Hdict)
    as (b & [_ Htruthy] & Hrun).
  unfold CloudTrailEnabled_process, bind at 1. rewrite Hrun, Hoff.
  unfold ret at 1. rewrite Htruthy, nonempty_sift.
  destruct (existsb (static_ok data) ts); reflexivity.
Qed.


Lemma running_loop_requests P l acc w rest :
  Forall (λ it, is_dict it.2 ∧ answers P it.2) l →
  annotated "cloudtrails" rest w →
  ∃ out w',
    running_loop P l acc w = (Ok out, w')
    ∧ w_calls w' = (w_calls w ++ (status_request ∘ snd <$> l))%list
    ∧ w_logs w' = w_logs w.
Proof.
  intros Hl. revert acc w.
  induction Hl as [|[i t] l [[d Hd] (arn & Harn & Hstatus)] _ IH];
    intros acc w Hann.
  - exists acc, w. cbn. rewrite app_nil_r. auto.
  - cbn [snd] in Hd, Harn. subst t.
    destruct (Hstatus (w_calls w)) as (st & HP & lg & Hlg).
    set (t' := VDict (<["Status" := VDict st]> d)).
    set (w1 := World (w_calls w ++ [get_trail_status arn]) (w_logs w)
                     (w_resources w)).
    assert (Hann1 : annotated "cloudtrails" rest w1) by exact Hann.
    destruct (alias_store_annotated "cloudtrails" i t' rest w1 Hann1)
      as (w2 & Halias & Hann2 & Hcalls2 & Hlogs2).
    set (keep := status_ok (VDict st)).
    destruct (IH (if keep then acc ++ [(i, t')] else acc)%list w2 Hann2)
      as (out & w' & Hloop & Hcalls' & Hlogs').
    exists out, w'. split; [|split].
    + rewrite running_loop_cons.
      unfold bind at 1, lift at 1. rewrite Harn.
      unfold bind at 1, api. rewrite HP. fold w1.
      unfold bind at 1, lift at 1. cbn [setitem]. fold t'.
      unfold bind at 1. rewrite Halias.
      unfold bind at 1, lift at 1. cbn [getitem]. rewrite Hlg.
      unfold bind at 1.
      replace ((if truthy lg
                then let! err := lift (get (VDict st) "LatestDeliveryError" VNone)
                     in ret (negb (truthy err))
                else ret false) w2) with (Ok keep, w2).
      * exact Hloop.
      * subst keep. unfold status_ok. rewrite Hlg.
        destruct (truthy lg); reflexivity.
    + rewrite Hcalls', Hcalls2. subst w1. cbn [w_calls].
      rewrite fmap_cons, <- app_assoc. cbn [compose snd app].
      unfold status_request at 2. rewrite (field_ok _ _ _ Harn). reflexivity.
    + rewrite Hlogs', Hlogs2. reflexivity.
Qed.

(** X10.  With the running check on, trails that are mappings and a
    provider that has a status for each of them, [check-cloudtrail]
    asks for the status of a trail exactly when the trail passes the
    enabled static sub-predicates: after the request that lists the
    trails it sends one [get_trail_status] per such trail, in the order
    of the list, and nothing else. *)
Theorem cloudtrail_status_requests
    (P : provider) (data : CloudTrailData) (acct : gmap string value)
    (rest : list value) (w : world) (resp : value) (ts : list value) :
  enabled_by_default (running data) = true →
  w_resources w = VDict acct :: rest →
  P (w_calls w) describe_trails = ApiOk resp →
  getitem resp "trailList" = Ok (VList ts) →
  Forall is_dict ts →
  Forall (answers P) ts →
  ∃ decided w',
    CloudTrailEnabled_process P data w = (Ok decided, w')
    ∧ w_calls w' =
        (w_calls w
         ++ describe_trails
            :: (status_request <$> List.filter (static_ok data) ts))%list
    ∧ w_logs w' = w_logs w.
Proof.
  intros Hon Hres HP Hraw Hdict Hanswers.
  destruct (trails_chain P data w acct rest resp ts Hres HP Hraw Hdict)
    as (b & _ & Hrun).
  set (w1 := World _ _ _) in Hrun.
  assert (Hann : annotated "cloudtrails" rest w1).
  { eexists. split; [reflexivity|]. rewrite lookup_insert_eq. eauto. }
  destruct (running_loop_requests P (sift (static_tests data) (imap pair ts))
              [] w1 rest) as (out & w' & Hloop & Hcalls & Hlogs);
    [|exact Hann|].
  { apply Forall_forall. intros it Hit.
    apply elem_of_sift in Hit as [Hit _].
    apply elem_of_lookup_imap in Hit as (j & x & -> & Hx).
    apply list_elem_of_lookup_2 in Hx. cbn [snd].
    rewrite Forall_forall in Hdict, Hanswers. auto. }
  unfold CloudTrailEnabled_process, bind at 1. rewrite Hrun, Hon.
  unfold bind at 1. rewrite Hloop. unfold ret at 1.
  assert (Hsent : w_calls w' =
            (w_calls w ++ describe_trails
               :: (status_request <$> List.filter (static_ok data) ts))%list).
  { rewrite Hcalls. subst w1. cbn [w_calls].
    rewrite <- app_assoc, list_fmap_compose, sifted_trails. reflexivity. }
  destruct (binding_truthy (Built out)).
  - exists [], w'. auto.
  - exists (w_resources w'), w'. auto.
Qed.

(** X11.  An account with a single trail that passes the static
    sub-predicates, the running check being on: the filter asks for the
    status of the trail, stores it into the trail, and reports the
    account compliant exactly when the status says that the trail is
    logging and has no delivery error.  The trail under ['cloudtrails']
    is the object the status was stored into, so the annotation shows
    the ['Status']. *)
Theorem cloudtrail_single_trail
    (P : provider) (data : CloudTrailData) (acct : gmap string value)
    (rest : list value) (w : world) (resp : value)
    (d st : gmap string value) (arn lg : value) :
  enabled_by_default (running data) = true →
  w_resources w = VDict acct :: rest →
  P (w_calls w) describe_trails = ApiOk resp →
  getitem resp "trailList" = Ok (VList [VDict d]) →
  static_ok data (VDict d) = true →
  d !! "TrailARN" = Some arn →
  P (w_calls w ++ [describe_trails])%list (get_trail_status arn)
    = ApiOk (VDict st) →
  st !! "IsLogging" = Some lg →
  let trail := VDict (<["Status" := VDict st]> d) in
  let w' := World (w_calls w ++ [describe_trails; get_trail_status arn])
                  (w_logs w)
                  (VDict (<["cloudtrails" := VList [trail]]> acct) :: rest) in
  CloudTrailEnabled_process P data w
  = (if status_ok (VDict st) then Ok [] else Ok (w_resources w'), w').
Proof.
  intros Hon Hres HP Hraw Hstatic Harn HPs Hlg trail w'.
  destruct (trails_chain P data w acct rest resp [VDict d] Hres HP Hraw)
    as (b & _ & Hrun); [repeat constructor; eexists; reflexivity|].
  unfold CloudTrailEnabled_process, bind at 1. rewrite Hrun, Hon.
  rewrite sift_filter. cbn [imap List.filter snd]. fold (static_ok data (VDict d)).
  rewrite Hstatic.
  unfold bind at 1. rewrite running_loop_cons.
  unfold bind at 1, lift at 1. cbn [getitem]. rewrite Harn.
  unfold bind at 1, api. cbn [w_calls]. rewrite HPs.
  unfold bind at 1, lift at 1. cbn [setitem].
  unfold bind at 1, alias_store. cbn [w_resources].
  rewrite lookup_insert_eq. cbn [w_calls w_logs].
  rewrite insert_insert_eq.
  unfold bind at 1, lift at 1. cbn [getitem]. rewrite Hlg.
  unfold bind at 1. unfold status_ok. rewrite Hlg.
  rewrite <- app_assoc. cbn [app list_insert].
  destruct (truthy lg); [|reflexivity].
  unfold bind at 1, lift at 1. cbn [get]. unfold ret at 1.
  destruct (truthy (default VNone (st !! "LatestDeliveryError"))); reflexivity.
Qed.

(** X12.  A trail that reaches the running check without a ['TrailARN']
    makes [check-cloudtrail] raise the [KeyError] of the subscript: the
    filter decides nothing, no status is asked for, and the record
    keeps the ['cloudtrails'] annotation it had already received. *)
Theorem cloudtrail_trail_without_arn
    (P : provider) (data : CloudTrailData) (acct : gmap string value)
    (rest : list value) (w : world) (resp : value)
    (d : gmap string value) (others : list value) :
  enabled_by_default (running data) = true →
  w_resources w = VDict acct :: rest →
  P (w_calls w) describe_trails = ApiOk resp →
  getitem resp "trailList" = Ok (VList (VDict d :: others)) →
  Forall is_dict others →
  static_ok data (VDict d) = true →
  d !! "TrailARN" = None →
  CloudTrailEnabled_process P data w
  = (Raise (KeyError (VStr "TrailARN")),
     World (w_calls w ++ [describe_trails]) (w_logs w)
           (VDict (<["cloudtrails" := VList (VDict d :: others)]> acct) :: rest)).
Proof.
  intros Hon Hres HP Hraw Hdict Hstatic Harn.
  destruct (trails_chain P data w acct rest resp (VDict d :: others)
              Hres HP Hraw) as (b & _ & Hrun);
    [constructor; [eexists; reflexivity | exact Hdict]|].
  unfold CloudTrailEnabled_process, bind at 1. rewrite Hrun, Hon.
  rewrite sift_filter, imap_cons. cbn [List.filter snd].
  fold (static_ok data (VDict d)). rewrite Hstatic.
  unfold bind at 1. rewrite running_loop_cons.
  unfold bind at 1, lift at 1. cbn [getitem]. rewrite Harn. reflexivity.
Qed.


(** ** [check-config], case by case *)

Section Config.
Variable P : provider.
Variable data : ConfigData.

(** The two describe requests and the two annotations. *)
Lemma ConfigEnabled_start w acct rest resp channels resp' recorders
    (k : value → M (value * value)) :
  w_resources w = VDict acct :: rest →
  P (w_calls w) describe_delivery_channels = ApiOk resp →
  getitem resp "DeliveryChannels" = Ok channels →
  P (w_calls w ++ [describe_delivery_channels])%list
    describe_configuration_recorders = ApiOk resp' →
  getitem resp' "ConfigurationRecorders" = Ok recorders →
  ConfigEnabled_recorders P data w
  = (let! recorders :=
       (if enabled (global_resources data)
        then lift (comprehend (recording_group_has "includeGlobalResources")
                              recorders)
        else ret recorders) in
     let! recorders :=
       (if enabled (all_resources data)
        then lift (comprehend (recording_group_has "allSupported") recorders)
        else ret recorders) in
     let! recorders :=
       (if enabled_by_default (cfg_running data) && truthy recorders then
          let! resp := api P describe_configuration_recorder_status in
          let! l := lift (getitem resp "ConfigurationRecordersStatus") in
          let! items := lift (iter l) in
          let! status := lift (dict_by "name" items ∅) in
          do! resource0_setitem "config_status" (VDict status) in
          lift (comprehend (recorder_running status) recorders)
        else ret recorders) in
     ret (channels, recorders))
      (World (w_calls w ++ [describe_delivery_channels;
                            describe_configuration_recorders])
             (w_logs w)
             (VDict (<["config_channels" := channels]>
                       (<["config_recorders" := recorders]> acct)) :: rest)).
Proof.
  intros Hres HP Hch HP' Hrec.
  unfold ConfigEnabled_recorders.
  unfold bind at 1, api at 1. rewrite HP.
  unfold bind at 1, lift at 1. rewrite Hch.
  unfold bind at 1, api at 1. cbn [w_calls]. rewrite HP'.
  unfold bind at 1, lift at 1. rewrite Hrec.
  unfold bind at 1, resource0_setitem at 1. cbn [w_resources]. rewrite Hres.
  cbn [setitem w_calls w_logs].
  unfold bind at 1, resource0_setitem at 1. cbn [w_resources setitem w_calls w_logs].
  rewrite <- app_assoc. reflexivity.
Qed.

(** X13.  An account without configuration recorders: [check-config]
    sends its two describe requests and never asks for the status of
    the recorders, whatever the flags; it returns the resource list,
    its record annotated with the channels and the empty recorder list
    and without ['config_status']. *)
Theorem config_without_recorders
    (acct : gmap string value) (rest : list value) (w : world)
    (resp channels resp' : value) :
  w_resources w = VDict acct :: rest →
  P (w_calls w) describe_delivery_channels = ApiOk resp →
  getitem resp "DeliveryChannels" = Ok channels →
  P (w_calls w ++ [describe_delivery_channels])%list
    describe_configuration_recorders = ApiOk resp' →
  getitem resp' "ConfigurationRecorders" = Ok (VList []) →
  let w' := World (w_calls w ++ [describe_delivery_channels;
                                 describe_configuration_recorders])
                  (w_logs w)
                  (VDict (<["config_channels" := channels]>
                            (<["config_recorders" := VList []]> acct)) :: rest) in
  ConfigEnabled_process P data w = (Ok (w_resources w'), w').
Proof.
  intros Hres HP Hch HP' Hrec w'.
  unfold ConfigEnabled_process, bind at 1.
  rewrite (ConfigEnabled_start w acct rest resp channels resp' (VList [])
             (λ _, ret (VNone, VNone)) Hres HP Hch HP' Hrec).
  fold w'.
  destruct (enabled (global_resources data)), (enabled (all_resources data)),
    (enabled_by_default (cfg_running data));
    cbn; rewrite andb_false_r; reflexivity.
Qed.

(** X14.  An account with one recorder, which passes the enabled
    sub-predicates on its recording group, and whose status the provider
    lists: with the running check on, [check-config] sends three
    requests, annotates the record with the recorders, the channels and
    the statuses by name, and reports the account compliant exactly
    when there is a delivery channel, the recorder is recording, and its
    last status is pending or success, in any case of letters. *)
Theorem config_single_recorder
    (acct : gmap string value) (rest : list value) (w : world)
    (resp channels resp' resp'' recording : value)
    (r s : gmap string value) (n last_status : string) :
  enabled_by_default (cfg_running data) = true →
  recorder_selected data (VDict r) →
  w_resources w = VDict acct :: rest →
  P (w_calls w) describe_delivery_channels = ApiOk resp →
  getitem resp "DeliveryChannels" = Ok channels →
  P (w_calls w ++ [describe_delivery_channels])%list
    describe_configuration_recorders = ApiOk resp' →
  getitem resp' "ConfigurationRecorders" = Ok (VList [VDict r]) →
  r !! "name" = Some (VStr n) →
  P (w_calls w ++ [describe_delivery_channels;
                   describe_configuration_recorders])%list
    describe_configuration_recorder_status = ApiOk resp'' →
  getitem resp'' "ConfigurationRecordersStatus" = Ok (VList [VDict s]) →
  s !! "name" = Some (VStr n) →
  s !! "recording" = Some recording →
  s !! "lastStatus" = Some (VStr last_status) →
  let w' :=
    World (w_calls w ++ [describe_delivery_channels;
                         describe_configuration_recorders;
                         describe_configuration_recorder_status])
          (w_logs w)
          (VDict (<["config_status" := VDict {[ n := VDict s ]}]>
                    (<["config_channels" := channels]>
                       (<["config_recorders" := VList [VDict r]]> acct)))
             :: rest) in
  ConfigEnabled_process P data w
  = (if truthy channels && recorder_ok recording last_status
     then Ok [] else Ok (w_resources w'), w').
Proof.
  intros Hon [Hglobal Hall] Hres HP Hch HP' Hrec Hname HP'' Hst Hsname
    Hrecording Hlast w'.
  unfold ConfigEnabled_process, bind at 1.
  rewrite (ConfigEnabled_start w acct rest resp channels resp' (VList [VDict r])
             (λ _, ret (VNone, VNone)) Hres HP Hch HP' Hrec).
  assert (Hg : (if enabled (global_resources data)
                then lift (comprehend
                             (recording_group_has "includeGlobalResources")
                             (VList [VDict r]))
                else ret (VList [VDict r]))
               = ret (VList [VDict r])).
  { destruct (enabled (global_resources data)); [|reflexivity].
    unfold comprehend. cbn [iter rbind filter_r].
    rewrite (Hglobal eq_refl). reflexivity. }
  assert (Ha : (if enabled (all_resources data)
                then lift (comprehend (recording_group_has "allSupported")
                                      (VList [VDict r]))
                else ret (VList [VDict r]))
               = ret (VList [VDict r])).
  { destruct (enabled (all_resources data)); [|reflexivity].
    unfold comprehend. cbn [iter rbind filter_r].
    rewrite (Hall eq_refl). reflexivity. }
  rewrite Hg. unfold bind at 1, ret at 1. rewrite Ha.
  unfold bind at 1, ret at 1. rewrite Hon. cbn [truthy andb].
  unfold bind at 1. unfold bind at 1, api at 1. cbn [w_calls]. rewrite HP''.
  unfold bind at 1, lift at 1. rewrite Hst.
  unfold bind at 1, lift at 1. cbn [iter].
  unfold bind at 1, lift at 1. cbn [dict_by rbind getitem]. rewrite Hsname.
  cbn [as_key rbind].
  unfold bind at 1, resource0_setitem at 1. cbn [w_resources setitem w_calls w_logs].
  rewrite insert_empty.
  unfold lift at 1, comprehend. cbn [iter rbind filter_r].
  unfold recorder_running. cbn [getitem rbind]. rewrite Hname.
  cbn [lookup_key getitem rbind]. rewrite lookup_singleton_eq.
  cbn [rbind getitem]. rewrite Hrecording. cbn [rbind].
  rewrite <- app_assoc. cbn [app]. fold w'.
  unfold recorder_ok.
  destruct (truthy recording).
  - rewrite Hlast. cbn [rbind lower andb].
    destruct (String.eqb (lower_string last_status) "pending"
              || String.eqb (lower_string last_status) "success");
      unfold ret, resources; cbn [fst snd truthy andb];
      destruct (truthy channels); reflexivity.
  - unfold ret, resources. cbn [rbind fst snd truthy andb].
    rewrite andb_false_r. reflexivity.
Qed.

(** X15.  A recorder that the status response does not list makes
    [check-config] raise the [KeyError] of its name: the filter does
    not count the recorder as stopped, it decides nothing.  The record
    has received its three annotations by then. *)
Theorem config_recorder_without_status
    (acct : gmap string value) (rest : list value) (w : world)
    (resp channels resp' resp'' : value)
    (r : gmap string value) (others : list value) (n : string) :
  enabled_by_default (cfg_running data) = true →
  enabled (global_resources data) = false →
  enabled (all_resources data) = false →
  w_resources w = VDict acct :: rest →
  P (w_calls w) describe_delivery_channels = ApiOk resp →
  getitem resp "DeliveryChannels" = Ok channels →
  P (w_calls w ++ [describe_delivery_channels])%list
    describe_configuration_recorders = ApiOk resp' →
  getitem resp' "ConfigurationRecorders" = Ok (VList (VDict r :: others)) →
  r !! "name" = Some (VStr n) →
  P (w_calls w ++ [describe_delivery_channels;
                   describe_configuration_recorders])%list
    describe_configuration_recorder_status = ApiOk resp'' →
  getitem resp'' "ConfigurationRecordersStatus" = Ok (VList []) →
  ConfigEnabled_process P data w
  = (Raise (KeyError (VStr n)),
     World (w_calls w ++ [describe_delivery_channels;
                          describe_configuration_recorders;
                          describe_configuration_recorder_status])
           (w_logs w)
           (VDict (<["config_status" := VDict ∅]>
                     (<["config_channels" := channels]>
                        (<["config_recorders" := VList (VDict r :: others)]>
                           acct)))
              :: rest)).
Proof.
  intros Hon Hglobal Hall Hres HP Hch HP' Hrec Hname HP'' Hst.
  unfold ConfigEnabled_process, bind at 1.
  rewrite (ConfigEnabled_start w acct rest resp channels resp'
             (VList (VDict r :: others))
             (λ _, ret (VNone, VNone)) Hres HP Hch HP' Hrec).
  rewrite Hglobal, Hall, Hon. cbn [truthy andb].
  unfold bind at 1, ret at 1. unfold bind at 1, ret at 1.
  cbn [truthy].
  unfold bind at 1. unfold bind at 1, api at 1. cbn [w_calls]. rewrite HP''.
  unfold bind at 1, lift at 1. rewrite Hst.
  unfold bind at 1, lift at 1. cbn [iter].
  unfold bind at 1, lift at 1. cbn [dict_by].
  unfold bind at 1, resource0_setitem at 1. cbn [w_resources setitem w_calls w_logs].
  unfold lift at 1, comprehend. cbn [iter rbind filter_r].
  unfold recorder_running at 1. cbn [getitem rbind]. rewrite Hname.
  cbn [lookup_key getitem rbind]. rewrite lookup_empty. cbn [rbind].
  rewrite <- app_assoc. reflexivity.
Qed.

End Config.


(** ** Lookups that fail or come back empty *)

Section Lookups.
Variable P : provider.
Variable vf_match : value → result bool.

(** X16.  A request that the provider refuses is never read as
    non-compliance.  When the first request of [check-cloudtrail],
    [check-config], [iam-summary] or [password-policy] is refused, the
    filter raises the client error of the provider, and the resource
    list is as it was: nothing has been annotated. *)
Theorem refused_lookup_is_raised
    (w : world) (r : gmap string value) (rest : list value) (response : value) :
  w_resources w = VDict r :: rest →
  (∀ data, P (w_calls w) describe_trails = ApiError response →
     CloudTrailEnabled_process P data w
     = (Raise (ClientError response), after w describe_trails))
  ∧ (∀ data, P (w_calls w) describe_delivery_channels = ApiError response →
       ConfigEnabled_process P data w
       = (Raise (ClientError response), after w describe_delivery_channels))
  ∧ (truthy (default VNone (r !! "iam_summary")) = false →
     P (w_calls w) get_account_summary = ApiError response →
     IAMSummary_process P vf_match w
     = (Raise (ClientError response), after w get_account_summary))
  ∧ (truthy (default VNone (r !! "password_policy")) = false →
     P (w_calls w) get_account_password_policy = ApiError response →
     AccountPasswordPolicy_process P vf_match w
     = (Raise (ClientError response), after w get_account_password_policy)).
Proof.
  intros Hres. split; [|split; [|split]].
  - intros data HP.
    unfold CloudTrailEnabled_process, CloudTrailEnabled_trails.
    unfold bind at 1. unfold bind at 1. unfold api. rewrite HP. reflexivity.
  - intros data HP.
    unfold ConfigEnabled_process, ConfigEnabled_recorders.
    unfold bind at 1. unfold bind at 1. unfold api at 1. rewrite HP.
    reflexivity.
  - intros Hnone HP.
    unfold IAMSummary_process, bind, lift, resource0, api.
    rewrite Hres. cbn [get]. rewrite Hnone. cbn [negb]. rewrite HP.
    reflexivity.
  - intros Hnone HP.
    unfold AccountPasswordPolicy_process, bind, lift, resource0, api.
    rewrite Hres. cbn [get]. rewrite Hnone. cbn [negb]. rewrite HP.
    reflexivity.
Qed.

(** X17.  The two value filters differ on a response that lacks the
    member they read.  [iam-summary] subscripts ['SummaryMap'] and
    raises [KeyError], leaving the record without annotation.
    [password-policy] reads ['PasswordPolicy'] with an empty mapping as
    default: it stores the empty mapping, decides on it, and, an empty
    mapping being false, finds nothing cached the next time, so that the
    next evaluation sends the request again. *)
Theorem missing_member_of_the_response
    (w : world) (r d : gmap string value) (rest : list value) :
  w_resources w = VDict r :: rest →
  (truthy (default VNone (r !! "iam_summary")) = false →
   P (w_calls w) get_account_summary = ApiOk (VDict d) →
   d !! "SummaryMap" = None →
   IAMSummary_process P vf_match w
   = (Raise (KeyError (VStr "SummaryMap")), after w get_account_summary))
  ∧ (truthy (default VNone (r !! "password_policy")) = false →
     P (w_calls w) get_account_password_policy = ApiOk (VDict d) →
     d !! "PasswordPolicy" = None →
     let w1 := World (w_calls w ++ [get_account_password_policy]) (w_logs w)
                     (VDict (<["password_policy" := VDict ∅]> r) :: rest) in
     AccountPasswordPolicy_process P vf_match w
     = (decision vf_match (VDict ∅) w1, w1)
     ∧ ∀ d', P (w_calls w1) get_account_password_policy = ApiOk (VDict d') →
         w_calls (AccountPasswordPolicy_process P vf_match w1).2
         = (w_calls w1 ++ [get_account_password_policy])%list).
Proof.
  intros Hres. split.
  - intros Hnone HP Hmissing.
    unfold IAMSummary_process, bind, lift, resource0, api.
    rewrite Hres. cbn [get]. rewrite Hnone. cbn [negb]. rewrite HP.
    cbn [getitem]. rewrite Hmissing. reflexivity.
  - intros Hnone HP Hmissing w1. split.
    + apply (AccountPasswordPolicy_fetched P vf_match w r rest (VDict d)
               (VDict ∅) Hres Hnone HP).
      cbn [get]. rewrite Hmissing. reflexivity.
    + intros d' HP'.
      pose proof (AccountPasswordPolicy_fetched P vf_match w1
                    (<["password_policy" := VDict ∅]> r) rest (VDict d')
                    (default (VDict ∅) (d' !! "PasswordPolicy"))
                    eq_refl) as H.
      rewrite lookup_insert_eq in H.
      rewrite (H eq_refl HP' eq_refl). reflexivity.
Qed.

End Lookups.

(** ** Quotas and usage *)

Lemma last_named_cons attr x l :
  last_named attr (x :: l)
  = match last_named attr l with
    | Some a => Some a
    | None => if is_named attr x then Some x else None
    end.
Proof.
  unfold last_named. simpl. destruct (is_named attr x).
  - destruct (List.filter (is_named attr) l) as [|y l']; [reflexivity|].
    rewrite last_cons. destruct (last (y :: l')) eqn:E; [reflexivity|].
    apply last_None in E. discriminate.
  - destruct (last (List.filter (is_named attr) l)); reflexivity.
Qed.

Lemma dict_by_named items acc :
  Forall named items →
  ∃ m, dict_by "AttributeName" items acc = Ok m
       ∧ ∀ attr, m !! attr = match last_named attr items with
                             | Some a => Some a
                             | None => acc !! attr
                             end.
Proof.
  intros Hitems. revert acc.
  induction Hitems as [|x items (d & n & -> & Hn) _ IH]; intros acc.
  - exists acc. split; reflexivity.
  - destruct (IH (<[n := VDict d]> acc)) as (m & Hm & Hlookup).
    exists m. split.
    + cbn [dict_by getitem rbind]. rewrite Hn. cbn [rbind as_key]. exact Hm.
    + intros attr. rewrite Hlookup, last_named_cons.
      destruct (last_named attr items); [reflexivity|].
      unfold is_named, field. cbn [getitem]. rewrite Hn. cbn [eq_str].
      destruct (String.eqb_spec n attr) as [->|Hne].
      * apply lookup_insert_eq.
      * apply lookup_insert_ne. exact Hne.
Qed.

Lemma last_named_elem attr items a :
  last_named attr items = Some a → a ∈ items.
Proof.
  unfold last_named. intros H. apply last_Some_elem_of in H.
  apply list_elem_of_In, filter_In in H as [H _].
  apply list_elem_of_In, H.
Qed.

Section Attributes.
Variable P : provider.
Variable int_of_str : string → option Z.

Lemma get_attribute_count_named
    (attr : string) (w : world) (resp : value) (items : list value) :
  P (w_calls w) describe_account_attributes = ApiOk resp →
  getitem resp "AccountAttributes" = Ok (VList items) →
  Forall named items →
  get_attribute_count P int_of_str attr w
  = (match last_named attr items with
     | None => Ok None
     | Some a => rbind (read_count int_of_str a) (λ n, Ok (Some n))
     end,
     after w describe_account_attributes).
Proof.
  intros HP Hlist Hnamed.
  destruct (dict_by_named items ∅ Hnamed) as (m & Hm & Hlookup).
  unfold get_attribute_count.
  unfold bind at 1, api. rewrite HP.
  unfold bind at 1, lift at 1. rewrite Hlist.
  unfold bind at 1, lift at 1. cbn [iter].
  unfold bind at 1, lift at 1. rewrite Hm.
  rewrite (Hlookup attr).
  destruct (last_named attr items) as [a|] eqn:Hlast.
  - pose proof (last_named_elem _ _ _ Hlast) as Helem.
    rewrite Forall_forall in Hnamed.
    destruct (Hnamed a Helem) as (d & n & -> & Hn).
    assert (Htruthy : truthy (VDict d) = true).
    { cbn [truthy]. apply negb_true_iff, bool_decide_eq_false.
      intros Hdom. apply dom_empty_inv_L in Hdom. subst d.
      rewrite lookup_empty in Hn. discriminate Hn. }
    cbn [default from_option id]. rewrite Htruthy. cbn [negb].
    unfold bind at 1, lift at 1. cbn [getitem]. rewrite (Hlookup attr), Hlast.
    unfold read_count, bind, lift, ret, after.
    destruct (getitem (VDict d) "AttributeValues") as [vs|e]; [|reflexivity].
    cbn [rbind].
    destruct (getitem_int vs 0) as [v0|e]; [|reflexivity].
    cbn [rbind].
    destruct (getitem v0 "AttributeValue") as [av|e]; [|reflexivity].
    cbn [rbind].
    destruct (Py.int int_of_str av) as [k|e]; reflexivity.
  - rewrite lookup_empty. reflexivity.
Qed.

(** X18.  [get_attribute_count] over a list of attributes that are
    mappings named by strings sends one request and reads the count of
    the attribute it is asked for from the last entry of that name; an
    attribute that the list does not hold gives [None] rather than an
    error. *)
Theorem attribute_count_of_last_entry
    (attr : string) (w : world) (resp : value) (items : list value) :
  P (w_calls w) describe_account_attributes = ApiOk resp →
  getitem resp "AccountAttributes" = Ok (VList items) →
  Forall named items →
  get_attribute_count P int_of_str attr w
  = (match last_named attr items with
     | None => Ok None
     | Some a => rbind (read_count int_of_str a) (λ n, Ok (Some n))
     end,
     after w describe_account_attributes).
Proof. exact (get_attribute_count_named attr w resp items). Qed.

End Attributes.

Lemma eighty_percent_positive (q n : Z) :
  0 < q → eighty_percent (Some q) n = Ok (4 * q <=? 5 * n).
Proof.
  unfold eighty_percent, floordiv.
  intros Hq. destruct (Z.eqb_spec q 0); [lia|]. cbn [rbind].
  f_equal. destruct (Z.ltb_spec (n * 100 / q) 80) as [Hlt|Hge];
    destruct (Z.leb_spec (4 * q) (5 * n)) as [Hle|Hgt];
    cbn [negb]; try reflexivity; exfalso.
  - assert (80 <= n * 100 / q) by (apply Z.div_le_lower_bound; lia). lia.
  - assert (n * 100 / q < 80) by (apply Z.div_lt_upper_bound; lia). lia.
Qed.

(** X19.  The integer division of lines 225, 239 and 254 does not
    move the threshold: for a positive quota the filter answers [True] exactly
    when five times the usage reaches four times the quota.  A negative
    quota never fires on a usage that is not negative. *)
Theorem eighty_percent_threshold (q n : Z) :
  (0 < q → eighty_percent (Some q) n = Ok (4 * q <=? 5 * n))
  ∧ (q < 0 → 0 ≤ n → eighty_percent (Some q) n = Ok false).
Proof.
  split; [apply eighty_percent_positive|].
  unfold eighty_percent, floordiv.
  intros Hq Hn. destruct (Z.eqb_spec q 0); [lia|]. cbn [rbind].
  f_equal. apply negb_false_iff, Z.ltb_lt.
  rewrite <- (Z.div_opp_opp (n * 100) q) by lia.
  assert (- (n * 100) / - q <= 0) by (apply Z.div_le_upper_bound; lia).
  lia.
Qed.

Section Addresses.
Variable P : provider.
Variable int_of_str : string → option Z.

Lemma address_filter_raises domain pre d post :
  Forall (has_field "Domain") pre →
  d !! "Domain" = None →
  filter_r (λ i, rbind (getitem i "Domain") (λ x, Ok (eq_str x domain)))
           (pre ++ VDict d :: post)
  = Raise (KeyError (VStr "Domain")).
Proof.
  intros Hpre Hd. induction Hpre as [|x pre [v Hv] _ IH].
  - cbn [app filter_r getitem]. rewrite Hd. reflexivity.
  - cbn [app filter_r]. rewrite Hv. cbn [rbind]. rewrite IH. reflexivity.
Qed.

Lemma address_count_counts domain w resp items :
  P (w_calls w) describe_addresses = ApiOk resp →
  getitem resp "Addresses" = Ok (VList items) →
  Forall (has_field "Domain") items →
  address_count P domain w
  = (Ok (Z.of_nat (length (List.filter (in_domain domain) items))),
     after w describe_addresses).
Proof.
  intros HP Hlist Hitems.
  unfold address_count, bind, lift, ret, api. rewrite HP, Hlist.
  cbn [iter].
  rewrite (filter_r_pure _ (in_domain domain)); [reflexivity|].
  eapply Forall_impl; [exact Hitems|].
  intros x [v Hv]. unfold in_domain. rewrite (field_ok _ _ _ Hv), Hv.
  reflexivity.
Qed.

(** X20.  [address_count] sends one request and counts the addresses
    whose ['Domain'] is the domain asked for; addresses of the other
    domain do not count.  An address without ['Domain'] makes the
    filter raise [KeyError] rather than be left out of the count. *)
Theorem addresses_counted_by_domain
    (domain : string) (w : world) (resp : value) (items : list value) :
  P (w_calls w) describe_addresses = ApiOk resp →
  getitem resp "Addresses" = Ok (VList items) →
  (Forall (has_field "Domain") items →
   address_count P domain w
   = (Ok (Z.of_nat (length (List.filter (in_domain domain) items))),
      after w describe_addresses))
  ∧ (∀ pre d post,
       items = (pre ++ VDict d :: post)%list →
       Forall (has_field "Domain") pre →
       d !! "Domain" = None →
       address_count P domain w
       = (Raise (KeyError (VStr "Domain")), after w describe_addresses)).
Proof.
  intros HP Hlist. split.
  - exact (address_count_counts domain w resp items HP Hlist).
  - intros pre d post -> Hpre Hd.
    unfold address_count, bind, lift, ret, api. rewrite HP, Hlist.
    cbn [iter]. rewrite (address_filter_raises domain pre d post Hpre Hd).
    reflexivity.
Qed.

(** X21.  The two elastic-address filters from the responses of the
    provider to the decision.  Each sends the request for the attributes
    and then the request for the addresses, and nothing else.  With the
    quota read from the last attribute of its name, the filter of the
    classic addresses compares it with the number of addresses of the
    domain [standard] and the filter of the VPC addresses with the number
    of those of the domain [vpc]; when the attribute is not listed, the
    filter answers [False] after both requests. *)
Theorem elastic_address_filters_from_responses
    (account : value) (w : world) (resp resp' : value)
    (attrs addrs : list value) :
  P (w_calls w) describe_account_attributes = ApiOk resp →
  getitem resp "AccountAttributes" = Ok (VList attrs) →
  Forall named attrs →
  P (w_calls w ++ [describe_account_attributes])%list describe_addresses
  = ApiOk resp' →
  getitem resp' "Addresses" = Ok (VList addrs) →
  Forall (has_field "Domain") addrs →
  let used domain :=
    Z.of_nat (length (List.filter (in_domain domain) addrs)) in
  let w' := after (after w describe_account_attributes) describe_addresses in
  let decides (attr domain : string) (filter : M bool) :=
    (last_named attr attrs = None → filter w = (Ok false, w'))
    ∧ (∀ a q, last_named attr attrs = Some a →
         read_count int_of_str a = Ok q → 0 < q →
         filter w = (Ok (4 * q <=? 5 * used domain), w')) in
  decides "max-elastic-ips" "standard"
          (AccountMaxElasticIPs_call P int_of_str account)
  ∧ decides "vpc-max-elastic-ips" "vpc"
            (AccountMaxVpcElasticIPs_call P int_of_str account).
Proof.
  intros HP Hattrs Hnamed HP' Haddrs Hdomains used w' decides.
  assert (Hcount : ∀ attr,
    get_attribute_count P int_of_str attr w
    = (match last_named attr attrs with
       | None => Ok None
       | Some a => rbind (read_count int_of_str a) (λ n, Ok (Some n))
       end, after w describe_account_attributes)).
  { intros attr.
    apply (get_attribute_count_named P int_of_str attr w resp attrs
             HP Hattrs Hnamed). }
  assert (Hused : ∀ domain,
    address_count P domain (after w describe_account_attributes)
    = (Ok (used domain), w')).
  { intros domain.
    apply (address_count_counts domain
             (after w describe_account_attributes) resp' addrs HP' Haddrs).
    exact Hdomains. }
  split; split.
  - intros Hnone. unfold AccountMaxElasticIPs_call, bind, lift.
    rewrite Hcount, Hnone, Hused. reflexivity.
  - intros a q Ha Hq Hpos. unfold AccountMaxElasticIPs_call, bind, lift.
    rewrite Hcount, Ha, Hq. cbn [rbind]. rewrite Hused.
    rewrite (eighty_percent_positive q _ Hpos). reflexivity.
  - intros Hnone. unfold AccountMaxVpcElasticIPs_call, bind, lift.
    rewrite Hcount, Hnone, Hused. reflexivity.
  - intros a q Ha Hq Hpos. unfold AccountMaxVpcElasticIPs_call, bind, lift.
    rewrite Hcount, Ha, Hq. cbn [rbind]. rewrite Hused.
    rewrite (eighty_percent_positive q _ Hpos). reflexivity.
Qed.

End Addresses.

End AccountFacts.

(** ** The further properties at sample inputs *)

Module MoreInstances.
Import Account AccountProps AccountSpec AccountManager AccountMoreProps AccountFacts.
Import RDSCluster RDSClusterProps RDSClusterMoreProps RDSClusterFacts.
Import Records Samples Fixtures.

Lemma accepts_everything op : accepts_operation accepts op.
Proof. intros h c _. eexists. reflexivity. Defined.

Lemma clusters_identified : Forall (has_field "DBClusterIdentifier") two_clusters.
Proof. repeat constructor; eexists; reflexivity. Defined.

Lemma snapshots_identified :
  Forall (has_field "DBClusterSnapshotIdentifier") three_snapshots.
Proof. repeat constructor; eexists; reflexivity. Defined.

(** Two clusters deleted without a final snapshot. *)
Lemma delete_two_clusters_at_samples :
  Delete_process accepts module_globals snapshot_name
    {| skip_snapshot := Some true |} two_clusters start
  = (Ok tt,
     World (delete_request snapshot_name {| skip_snapshot := Some true |}
              <$> two_clusters)
           (delete_log <$> two_clusters) []).
Proof.
  exact (delete_sends_one_request_per_cluster accepts module_globals
           snapshot_name {| skip_snapshot := Some true |} two_clusters start
           clusters_identified (accepts_everything _)).
Defined.

(** A record without identifier after two clusters. *)
Lemma delete_stops_at_samples :
  Delete_process accepts module_globals snapshot_name
    {| skip_snapshot := Some true |}
    (two_clusters ++ VDict ∅ :: [cluster "db-3" 5]) start
  = (Raise (KeyError (VStr "DBClusterIdentifier")),
     World (delete_request snapshot_name {| skip_snapshot := Some true |}
              <$> two_clusters)
           (delete_log <$> two_clusters) []).
Proof.
  exact (delete_stops_at_missing_identifier accepts module_globals
           snapshot_name {| skip_snapshot := Some true |} two_clusters
           [cluster "db-3" 5] (VDict ∅) (KeyError (VStr "DBClusterIdentifier"))
           start clusters_identified (accepts_everything _) eq_refl).
Defined.

(** Three snapshots are deleted last first. *)
Lemma snapshots_reversed_at_samples :
  ∃ futures w',
    RDSClusterSnapshotDelete_futures accepts module_globals in_order
      three_snapshots start = (Ok futures, w')
    ∧ w_calls w' = snapshot_delete_request <$> rev three_snapshots.
Proof.
  destruct (snapshots_deleted_once_in_reverse accepts in_order module_globals
              three_snapshots start snapshots_identified
              (accepts_everything _))
    as (futures & w' & Hfutures & Hcalls & _).
  exists futures, w'. split; [exact Hfutures | exact Hcalls].
Defined.

(** The batch of a record without identifier stops at that record. *)
Lemma broken_batch_at_samples :
  ∃ futures w',
    RDSClusterSnapshotDelete_futures accepts module_globals in_order
      broken_snapshots start = (Ok futures, w')
    ∧ w_calls w' = [delete_db_cluster_snapshot (VStr "s-3")]
    ∧ fut_outcome <$> futures = [Raise (NameError "ClientError")].
Proof.
  destruct (snapshot_batches_fail_apart accepts in_order broken_snapshots
              start (accepts_everything _))
    as (futures & w' & Hfutures & Hcalls & Hbatches).
  exists futures, w'. split; [exact Hfutures|]. split.
  - rewrite Hcalls. reflexivity.
  - change (chunks (rev broken_snapshots) 50)
      with [[snapshot "s-3"; VDict ∅; snapshot "s-1"]] in Hbatches.
    inversion Hbatches as [|b f bs fs [_ Hf] Hrest]; subst.
    inversion Hrest; subst. cbn [fmap list_fmap]. rewrite Hf. reflexivity.
Defined.

(** Two clusters, the first refused, with completion in the order of
    submission. *)
Lemma failures_logged_at_samples :
  ∃ futures w',
    Snapshot_futures (refuses "DBClusterIdentifier" "db-1" "Throttling")
      snapshot_name in_order two_clusters start = (Ok futures, w')
    ∧ w_logs w' ≡ₚ
        flat_map (wave_log "Exception creating RDS cluster snapshot  \n %s")
                 (waves [] futures).
Proof.
  exact (snapshot_failures_logged_every_wave in_order
           (λ A l, reflexivity l)
           (refuses "DBClusterIdentifier" "db-1" "Throttling")
           snapshot_name two_clusters start).
Defined.

(** The account takes the name of its alias. *)
Lemma account_name_at_samples :
  Account_resources one_alias (ret (VStr "123456789012")) ret start
  = (Ok [account_record (VStr "123456789012") (VStr "dev")],
     after start list_account_aliases).
Proof.
  exact (proj1 (proj2 (account_name_is_first_alias one_alias
                         (ret (VStr "123456789012")) ret start start
                         (VStr "123456789012") aliases eq_refl eq_refl))
           (VStr "dev") [] eq_refl).
Defined.

Lemma trail_is_dict : Forall is_dict [trail].
Proof. repeat constructor. eexists. reflexivity. Defined.

(** With the running check off a stopped trail passes. *)
Lemma cloudtrail_without_status_at_samples :
  CloudTrailEnabled_process (one_trail stopped)
    (set_flag Running (Some false) no_flags) account_world
  = (Ok [],
     World [describe_trails] []
           [VDict (<["cloudtrails" := VList [trail]]> account)]).
Proof.
  exact (cloudtrail_decision_without_status (one_trail stopped)
           (set_flag Running (Some false) no_flags) account [] account_world
           (VDict {[ "trailList" := VList [trail] ]}) [trail]
           eq_refl eq_refl eq_refl eq_refl trail_is_dict).
Defined.

(** One trail, one status request. *)
Lemma cloudtrail_requests_at_samples :
  ∃ decided w',
    CloudTrailEnabled_process (one_trail delivering) no_flags account_world
    = (Ok decided, w')
    ∧ w_calls w' = [describe_trails; status_request trail].
Proof.
  destruct (cloudtrail_status_requests (one_trail delivering) no_flags account
              [] account_world (VDict {[ "trailList" := VList [trail] ]})
              [trail] eq_refl eq_refl eq_refl eq_refl trail_is_dict)
    as (decided & w' & Hprocess & Hcalls & _).
  - repeat constructor. eexists. split; [reflexivity|].
    intros h. eexists. split; [reflexivity | eexists; reflexivity].
  - exists decided, w'. split; [exact Hprocess | exact Hcalls].
Defined.

(** A stopped trail is reported with its status. *)
Lemma single_trail_at_samples :
  CloudTrailEnabled_process (one_trail stopped) no_flags account_world
  = (Ok [VDict (<["cloudtrails" :=
                    VList [VDict (<["Status" := stopped]> trail_fields)]]>
                  account)],
     World [describe_trails;
            get_trail_status (VStr "arn:aws:cloudtrail:trail/main")] []
           [VDict (<["cloudtrails" :=
                       VList [VDict (<["Status" := stopped]> trail_fields)]]>
                     account)]).
Proof.
  exact (cloudtrail_single_trail (one_trail stopped) no_flags account []
           account_world (VDict {[ "trailList" := VList [trail] ]})
           trail_fields {[ "IsLogging" := VBool false ]}
           (VStr "arn:aws:cloudtrail:trail/main") (VBool false)
           eq_refl eq_refl eq_refl eq_refl eq_refl eq_refl eq_refl eq_refl).
Defined.

(** A trail without ARN. *)
Lemma nameless_trail_at_samples :
  CloudTrailEnabled_process one_nameless_trail no_flags account_world
  = (Raise (KeyError (VStr "TrailARN")),
     World [describe_trails] []
           [VDict (<["cloudtrails" := VList [VDict nameless_trail]]> account)]).
Proof.
  exact (cloudtrail_trail_without_arn one_nameless_trail no_flags account []
           account_world
           (VDict {[ "trailList" := VList [VDict nameless_trail] ]})
           nameless_trail [] eq_refl eq_refl eq_refl eq_refl
           (List.Forall_nil _) eq_refl eq_refl).
Defined.

(** No recorder: the account is reported. *)
Lemma no_recorders_at_samples :
  (ConfigEnabled_process (config_service [] []) config_defaults
     account_world).1
  = Ok [VDict (<["config_channels" := VList [channel]]>
                 (<["config_recorders" := VList []]> account))].
Proof.
  rewrite (config_without_recorders (config_service [] []) config_defaults
             account [] account_world
             (VDict {[ "DeliveryChannels" := VList [channel] ]})
             (VList [channel])
             (VDict {[ "ConfigurationRecorders" := VList [] ]})
             eq_refl eq_refl eq_refl eq_refl eq_refl).
  reflexivity.
Defined.

(** One recorder that records, with the status in capitals. *)
Lemma one_recorder_at_samples :
  (ConfigEnabled_process
     (config_service [VDict recorder] [VDict recorder_status])
     config_defaults account_world).1
  = Ok [].
Proof.
  rewrite (config_single_recorder
             (config_service [VDict recorder] [VDict recorder_status])
             config_defaults account [] account_world
             (VDict {[ "DeliveryChannels" := VList [channel] ]})
             (VList [channel])
             (VDict {[ "ConfigurationRecorders" := VList [VDict recorder] ]})
             (VDict {[ "ConfigurationRecordersStatus" :=
                         VList [VDict recorder_status] ]})
             (VBool true) recorder recorder_status "default" "SUCCESS"
             eq_refl (conj (λ H, False_ind _ (Bool.diff_false_true H))
                           (λ H, False_ind _ (Bool.diff_false_true H)))
             eq_refl eq_refl eq_refl eq_refl eq_refl eq_refl eq_refl eq_refl
             eq_refl eq_refl eq_refl).
  reflexivity.
Defined.

(** A recorder whose status is not listed. *)
Lemma unlisted_recorder_at_samples :
  (ConfigEnabled_process (config_service [VDict recorder] [])
     config_defaults account_world).1
  = Raise (KeyError (VStr "default")).
Proof.
  rewrite (config_recorder_without_status
             (config_service [VDict recorder] []) config_defaults account []
             account_world
             (VDict {[ "DeliveryChannels" := VList [channel] ]})
             (VList [channel])
             (VDict {[ "ConfigurationRecorders" := VList [VDict recorder] ]})
             (VDict {[ "ConfigurationRecordersStatus" := VList [] ]})
             recorder [] "default"
             eq_refl eq_refl eq_refl eq_refl eq_refl eq_refl eq_refl eq_refl
             eq_refl eq_refl eq_refl).
  reflexivity.
Defined.

(** Every filter raises what the provider refused with. *)
Lemma refused_lookups_at_samples :
  (CloudTrailEnabled_process refuses_all no_flags account_world).1
  = Raise (ClientError (error_response "UnknownOperation"))
  ∧ (IAMSummary_process refuses_all access_keys_present account_world).2
    = after account_world get_account_summary.
Proof.
  destruct (refused_lookup_is_raised refuses_all access_keys_present
              account_world account []
              (error_response "UnknownOperation") eq_refl)
    as (Htrails & _ & Hsummary & _).
  split.
  - rewrite (Htrails no_flags eq_refl). reflexivity.
  - rewrite (Hsummary eq_refl eq_refl). reflexivity.
Defined.

(** A response without its member. *)
Lemma empty_responses_at_samples :
  IAMSummary_process accepts access_keys_present account_world
  = (Raise (KeyError (VStr "SummaryMap")),
     after account_world get_account_summary)
  ∧ w_resources
      (AccountPasswordPolicy_process accepts access_keys_present
         account_world).2
    = [VDict (<["password_policy" := VDict ∅]> account)].
Proof.
  destruct (missing_member_of_the_response accepts access_keys_present
              account_world account ∅ [] eq_refl)
    as (Hsummary & Hpolicy).
  split.
  - exact (Hsummary eq_refl eq_refl eq_refl).
  - destruct (Hpolicy eq_refl eq_refl eq_refl) as [-> _]. reflexivity.
Defined.

Lemma attributes_named : Forall named listed_attributes.
Proof.
  repeat constructor; eexists _, _; (split; [reflexivity|]); reflexivity.
Defined.

Lemma addresses_have_domain : Forall (has_field "Domain") addresses_in_use.
Proof. repeat constructor; eexists; reflexivity. Defined.

(** The quota listed last is the one that is read. *)
Lemma attribute_count_at_samples :
  get_attribute_count elastic_quotas read_int "max-elastic-ips" start
  = (Ok (Some 5), after start describe_account_attributes)
  ∧ get_attribute_count elastic_quotas read_int "vpc-max-elastic-ips" start
    = (Ok None, after start describe_account_attributes).
Proof.
  split.
  - rewrite (attribute_count_of_last_entry elastic_quotas read_int
               "max-elastic-ips" start
               (VDict {[ "AccountAttributes" := VList listed_attributes ]})
               listed_attributes eq_refl eq_refl attributes_named).
    reflexivity.
  - rewrite (attribute_count_of_last_entry elastic_quotas read_int
               "vpc-max-elastic-ips" start
               (VDict {[ "AccountAttributes" := VList listed_attributes ]})
               listed_attributes eq_refl eq_refl attributes_named).
    reflexivity.
Defined.

(** Four classic addresses, one VPC address. *)
Lemma address_count_at_samples :
  address_count elastic_quotas "standard" start
  = (Ok 4, after start describe_addresses).
Proof.
  exact (proj1 (addresses_counted_by_domain elastic_quotas "standard" start
                  (VDict {[ "Addresses" := VList addresses_in_use ]})
                  addresses_in_use eq_refl eq_refl)
           addresses_have_domain).
Defined.

(** Four classic addresses of five allowed. *)
Lemma elastic_addresses_at_samples :
  (AccountMaxElasticIPs_call elastic_quotas read_int (VDict account) start).1
  = Ok true
  ∧ (AccountMaxVpcElasticIPs_call elastic_quotas read_int (VDict account)
       start).1
    = Ok false.
Proof.
  destruct (elastic_address_filters_from_responses elastic_quotas read_int
              (VDict account) start
              (VDict {[ "AccountAttributes" := VList listed_attributes ]})
              (VDict {[ "Addresses" := VList addresses_in_use ]})
              listed_attributes addresses_in_use
              eq_refl eq_refl attributes_named eq_refl eq_refl
              addresses_have_domain)
    as [[_ Hclassic] [Hvpc _]].
  split.
  - rewrite (Hclassic (attribute "max-elastic-ips" "5") 5 eq_refl eq_refl
               eq_refl).
    reflexivity.
  - rewrite (Hvpc eq_refl). reflexivity.
Defined.

End MoreInstances.
